(** * Loan amortisation against escalating rental income

    A shallow embedding of [calculateLoanData] (src/App.tsx), the
    year-by-year projection of a loan balance that is reduced by rental
    income, together with the properties its specification states.

    The source computes on JavaScript numbers.  The projection itself is
    written once, over an interface [Number] of the operations the source
    uses (integer literals, [+ - * /], [>] and [<=]); it is then read in
    two ways:

    - [Binary64]: IEEE 754 double precision, as [SpecFloat] specifies it
      (round to nearest even, signed zeros, infinities, NaN).  This is
      what a JavaScript engine computes, bit for bit.
    - [Exact]: the rationals extended with the two infinities and NaN,
      with the special values combined as IEEE 754 does but with no
      rounding and no overflow.  This is the arithmetic of the
      specification's formulas, not the one the source runs.

    What the source computes is stated for every [Number] or on
    [Binary64]; [Exact] shows what holds without rounding and where the
    doubles depart from it; concrete runs are evaluated in both. *)

From Stdlib Require Import ZArith QArith Qcanon List String Bool Lia Psatz Field.
From Stdlib Require Import Floats.SpecFloat.
From Stdlib Require Import DecimalString DecimalNat Qround Ascii FinFun.
Import ListNotations.
Local Open Scope nat_scope.

(** ** The arithmetic the source relies on *)

Class Number (num : Type) : Type := {
  lit : Z -> num;              (* an integer literal, or the loop counter read as a number *)
  add : num -> num -> num;     (* a + b *)
  sub : num -> num -> num;     (* a - b *)
  mul : num -> num -> num;     (* a * b *)
  div : num -> num -> num;     (* a / b *)
  gt  : num -> num -> bool;    (* a > b *)
  le  : num -> num -> bool     (* a <= b *)
}.

(** ** The projection, for any arithmetic *)

Section Simulator.

Context {num : Type} {N : Number num}.

(** [interface LoanGraph] *)
Record LoanGraph : Type := {
  id : string;
  name : string;
  loanAmount : num;
  monthlyRental : num;
  interestRate : num;
  rentalIncrease : num;
  color : string
}.

(** One element of [yearlyBreakdown]. *)
Record YearRecord : Type := {
  year : nat;
  loanAmountStart : num;
  interest : num;
  rentalIncome : num;
  loanAmountEnd : num
}.

(** The variables of [calculateLoanData] that the loop reads and writes.
    [yearsToZero] is [null] until the first crossing: [None] stands for
    [null]. *)
Record LoopState : Type := {
  currentLoanAmount : num;
  yearlyRentalIncome : num;
  st_years : list nat;
  st_loanAmounts : list num;
  st_yearlyBreakdown : list YearRecord;
  st_yearsToZero : option num
}.

(** The object [calculateLoanData] returns. *)
Record LoanData : Type := {
  years : list nat;
  loanAmounts : list num;
  yearsToZero : option num;
  yearlyBreakdown : list YearRecord
}.

Definition is_null (o : option num) : bool :=
  match o with None => true | Some _ => false end.

(** The state before the loop: the two accumulators, and the initial
    values pushed onto [years] and [loanAmounts]. *)
Definition init_state (graph : LoanGraph) : LoopState :=
  let currentLoanAmount := loanAmount graph in
  let yearlyRentalIncome := mul (lit 12) (monthlyRental graph) in
  {| currentLoanAmount := currentLoanAmount;
     yearlyRentalIncome := yearlyRentalIncome;
     st_years := [0%nat];
     st_loanAmounts := [currentLoanAmount];
     st_yearlyBreakdown := [];
     st_yearsToZero := None |}.

(** The interpolation inside the crossing test.  [escalated] is
    [yearlyRentalIncome] as the source reads it there, that is after the
    year's escalation; the source divides it by the factor again. *)
Definition crossing_point (graph : LoanGraph) (yr : nat)
    (previousAmount escalated : num) : num :=
  let monthlyRental := div (div escalated (rentalIncrease graph)) (lit 12) in
  let monthlyInterest := div (mul previousAmount (interestRate graph)) (lit 12) in
  let monthlyReduction := sub monthlyRental monthlyInterest in
  if gt monthlyReduction (lit 0) then
    let monthsToZero := div previousAmount monthlyReduction in
    add (lit (Z.of_nat yr)) (div monthsToZero (lit 12))
  else
    add (lit (Z.of_nat yr)) (lit 1).

(** One iteration of [for (let year = 0; year < numYears; year++)]. *)
Definition loop_body (graph : LoanGraph) (st : LoopState) (yr : nat) : LoopState :=
  let loanInterestRate := interestRate graph in
  let rentalIncreasePerYear := rentalIncrease graph in
  let loanAmountStart := currentLoanAmount st in
  let annualInterest := mul (currentLoanAmount st) loanInterestRate in
  let previousAmount := currentLoanAmount st in
  let currentLoanAmount' :=
    sub (add (currentLoanAmount st) annualInterest) (yearlyRentalIncome st) in
  let yearlyBreakdown' :=
    st_yearlyBreakdown st ++
    [ {| year := yr + 1;
         loanAmountStart := loanAmountStart;
         interest := annualInterest;
         rentalIncome := yearlyRentalIncome st;
         loanAmountEnd := currentLoanAmount' |} ] in
  let yearlyRentalIncome' := mul (yearlyRentalIncome st) rentalIncreasePerYear in
  let years' := st_years st ++ [(yr + 1)%nat] in
  let loanAmounts' := st_loanAmounts st ++ [currentLoanAmount'] in
  let yearsToZero' :=
    if gt previousAmount (lit 0) && le currentLoanAmount' (lit 0)
       && is_null (st_yearsToZero st)
    then Some (crossing_point graph yr previousAmount yearlyRentalIncome')
    else st_yearsToZero st in
  {| currentLoanAmount := currentLoanAmount';
     yearlyRentalIncome := yearlyRentalIncome';
     st_years := years';
     st_loanAmounts := loanAmounts';
     st_yearlyBreakdown := yearlyBreakdown';
     st_yearsToZero := yearsToZero' |}.

(** The loop, run for [numYears] iterations from the initial state. *)
Definition run_loop (graph : LoanGraph) (numYears : nat) : LoopState :=
  fold_left (loop_body graph) (seq 0 numYears) (init_state graph).

(** [calculateLoanData]; the source reads [numYears] from the component's
    [maxYears], here an argument. *)
Definition calculateLoanData (graph : LoanGraph) (maxYears : nat) : LoanData :=
  let st := run_loop graph maxYears in
  {| years := st_years st;
     loanAmounts := st_loanAmounts st;
     yearsToZero := st_yearsToZero st;
     yearlyBreakdown := st_yearlyBreakdown st |}.

End Simulator.

Arguments LoanGraph num : clear implicits.
Arguments YearRecord num : clear implicits.
Arguments LoopState num : clear implicits.
Arguments LoanData num : clear implicits.

(** ** The loop, unfolded: one state per completed year *)

Section Unfolded.

Context {num : Type} {N : Number num}.

Implicit Types (graph : LoanGraph num) (n i k : nat).

(** [currentLoanAmount] and [yearlyRentalIncome] after [i] iterations. *)
Definition balance graph i : num := currentLoanAmount (run_loop graph i).
Definition rental graph i : num := yearlyRentalIncome (run_loop graph i).

(** The record pushed by iteration [i] (the source's [year = i]). *)
Definition record_of graph i : YearRecord num :=
  {| year := i + 1;
     loanAmountStart := balance graph i;
     interest := mul (balance graph i) (interestRate graph);
     rentalIncome := rental graph i;
     loanAmountEnd := balance graph (S i) |}.

(** The crossing test of iteration [i], without its [yearsToZero === null]
    conjunct. *)
Definition crossing graph i : bool :=
  gt (balance graph i) (lit 0) && le (balance graph (S i)) (lit 0).

(** What iteration [i] assigns to [yearsToZero] when its test succeeds. *)
Definition payoff_at graph i : num :=
  crossing_point graph i (balance graph i) (rental graph (S i)).

(** The crossing test read off the returned [loanAmounts]: index [k >= 1]
    holds a value [<= 0] and index [k - 1] a value [> 0]. *)
Definition crosses_at (balances : list num) (k : nat) : bool :=
  match k with
  | O => false
  | S j =>
      match nth_error balances j, nth_error balances k with
      | Some a, Some b => gt a (lit 0) && le b (lit 0)
      | _, _ => false
      end
  end.

(** The payoff point in the specification's words, for a first crossing
    in the 1-based year [y]: the monthly rental is the year's own annual
    rental (before escalation) over twelve. *)
Definition spec_payoff_point graph (y : nat) (balanceStart annualRental : num) : num :=
  let monthlyRentalThisYear := div annualRental (lit 12) in
  let monthlyInterest := div (mul balanceStart (interestRate graph)) (lit 12) in
  let monthlyNetReduction := sub monthlyRentalThisYear monthlyInterest in
  if gt monthlyNetReduction (lit 0) then
    add (lit (Z.of_nat y - 1)) (div (div balanceStart monthlyNetReduction) (lit 12))
  else
    lit (Z.of_nat y).

(** [r ^ k] by [k] products, and the rental of the 1-based year [y] in
    the specification's closed form, [12 * monthlyRental *
    rentalIncrease ^ (y - 1)], evaluated in the arithmetic. *)
Definition power (r : num) (k : nat) : num := Nat.iter k (fun p => mul p r) (lit 1).

Definition spec_rental graph (y : nat) : num :=
  mul (mul (lit 12) (monthlyRental graph)) (power (rentalIncrease graph) (y - 1)).

(** Scenarios given by integers, in any arithmetic. *)
Definition integer_graph (l m i r : Z) : LoanGraph num :=
  {| id := "1"%string; name := "Scenario 1"%string;
     loanAmount := lit l; monthlyRental := lit m;
     interestRate := lit i; rentalIncrease := lit r;
     color := "rgb(255, 99, 132)"%string |}.

(** A loan of 100 against a rental of 10 a month with no interest, the
    rental dropping to nothing after the first year (factor 0): paid off
    within year 1. *)
Definition zero_escalation : LoanGraph num := integer_graph 100 10 0 0.


(** The component state [calculateLoanData] closes over. *)
Record AppState : Type := {
  graphs : list (LoanGraph num);
  autoScaled : bool;
  maxYears : nat;
  yAxisMin : num;
  yAxisMax : num
}.

(** A call of the closure [calculateLoanData] inside a render of [App]. *)
Definition call (app : AppState) graph : LoanData num :=
  calculateLoanData graph (maxYears app).

End Unfolded.

Arguments AppState num : clear implicits.

(** ** IEEE 754 double precision *)

Module Binary64.

Definition prec : Z := 53.
Definition emax : Z := 1024.

Definition float : Type := spec_float.

Definition of_Z (z : Z) : float := binary_normalize prec emax z 0 false.

#[global] Instance number : Number float := {|
  lit := of_Z;
  add := SFadd prec emax;
  sub := SFsub prec emax;
  mul := SFmul prec emax;
  div := SFdiv prec emax;
  gt  := fun a b => SFltb b a;
  le  := SFleb
|}.

(** A decimal literal [n / 10^k]: the double nearest to it, which is what
    correctly rounded division of the two integers gives when both are
    below [2^53]. *)
Definition decimal (n : Z) (k : nat) : float :=
  SFdiv prec emax (of_Z n) (of_Z (10 ^ Z.of_nat k)).

(** The component's initial scenario, with [0.1] and [1.06] as doubles. *)
Definition scenario1 : LoanGraph float :=
  {| id := "1"%string; name := "Scenario 1"%string;
     loanAmount := of_Z 1600000; monthlyRental := of_Z 16000;
     interestRate := decimal 1 1; rentalIncrease := decimal 106 2;
     color := "rgb(255, 99, 132)"%string |}.

(** A loan of 120 against a rental of 10 a month, no interest, the rental
    rising by 10 % a year: the balance is exactly zero after year 1. *)
Definition paid_at_year_end : LoanGraph float :=
  {| id := "1"%string; name := "Scenario 1"%string;
     loanAmount := of_Z 120; monthlyRental := of_Z 10;
     interestRate := of_Z 0; rentalIncrease := decimal 11 1;
     color := "rgb(255, 99, 132)"%string |}.


(** A loan of 100 against a rental of [1e308] a month, no interest, no
    escalation: the yearly rental overflows. *)
Definition overflowing_rental : LoanGraph float :=
  {| id := "1"%string; name := "Scenario 1"%string;
     loanAmount := of_Z 100; monthlyRental := of_Z (10 ^ 308);
     interestRate := of_Z 0; rentalIncrease := of_Z 1;
     color := "rgb(255, 99, 132)"%string |}.

Definition is_infinity (x : float) : bool :=
  match x with S754_infinity _ => true | _ => false end.

(** [x] is a double: its mantissa and exponent are those of the format. *)
Definition is_double (x : float) : bool := valid_binary prec emax x.

End Binary64.

(** ** Exact arithmetic with the IEEE special values *)

Module Exact.

(** A number is NaN, an infinity or a rational.  Sums, products and
    quotients of rationals are exact; a quotient by zero is NaN for [0 / 0]
    and an infinity otherwise; the special values combine as in IEEE 754.
    There is one zero: the sign of a zero is not kept. *)
Inductive xnum : Type :=
| XNaN : xnum
| XInf : bool -> xnum          (* [true] for the negative infinity *)
| XFin : Qc -> xnum.

Definition Qc_ltb (a b : Qc) : bool :=
  match (a ?= b)%Qc with Lt => true | _ => false end.

Definition Qc_leb (a b : Qc) : bool :=
  match (a ?= b)%Qc with Gt => false | _ => true end.

Definition Qc_eqb (a b : Qc) : bool :=
  match (a ?= b)%Qc with Eq => true | _ => false end.

Definition of_Z (z : Z) : Qc := Q2Qc (inject_Z z).

Definition xneg (x : xnum) : xnum :=
  match x with
  | XNaN => XNaN
  | XInf s => XInf (negb s)
  | XFin a => XFin (- a)%Qc
  end.

Definition xadd (x y : xnum) : xnum :=
  match x, y with
  | XNaN, _ | _, XNaN => XNaN
  | XInf s, XInf t => if Bool.eqb s t then XInf s else XNaN
  | XInf s, XFin _ | XFin _, XInf s => XInf s
  | XFin a, XFin b => XFin (a + b)%Qc
  end.

Definition xsub (x y : xnum) : xnum := xadd x (xneg y).

Definition xmul (x y : xnum) : xnum :=
  match x, y with
  | XNaN, _ | _, XNaN => XNaN
  | XInf s, XInf t => XInf (xorb s t)
  | XInf s, XFin a | XFin a, XInf s =>
      if Qc_eqb a 0 then XNaN else XInf (xorb s (Qc_ltb a 0))
  | XFin a, XFin b => XFin (a * b)%Qc
  end.

Definition xdiv (x y : xnum) : xnum :=
  match x, y with
  | XNaN, _ | _, XNaN => XNaN
  | XInf _, XInf _ => XNaN
  | XInf s, XFin b => XInf (xorb s (Qc_ltb b 0))
  | XFin _, XInf _ => XFin 0%Qc
  | XFin a, XFin b =>
      if Qc_eqb b 0 then
        if Qc_eqb a 0 then XNaN else XInf (Qc_ltb a 0)
      else XFin (a / b)%Qc
  end.

Definition xltb (x y : xnum) : bool :=
  match x, y with
  | XNaN, _ | _, XNaN => false
  | XInf s, XInf t => s && negb t
  | XInf s, XFin _ => s
  | XFin _, XInf t => negb t
  | XFin a, XFin b => Qc_ltb a b
  end.

Definition xleb (x y : xnum) : bool :=
  match x, y with
  | XNaN, _ | _, XNaN => false
  | XInf s, XInf t => s || negb t
  | XInf s, XFin _ => s
  | XFin _, XInf t => negb t
  | XFin a, XFin b => Qc_leb a b
  end.

#[global] Instance number : Number xnum := {|
  lit := fun z => XFin (of_Z z);
  add := xadd;
  sub := xsub;
  mul := xmul;
  div := xdiv;
  gt  := fun a b => xltb b a;
  le  := xleb
|}.

(** A decimal literal [n / 10^k], exactly. *)
Definition decimal (n : Z) (k : nat) : xnum :=
  XFin (Q2Qc (inject_Z n / inject_Z (10 ^ Z.of_nat k))).

(** Equality of two values, decided on the reduced fractions. *)
Definition same (x y : xnum) : bool :=
  match x, y with
  | XNaN, XNaN => true
  | XInf s, XInf t => Bool.eqb s t
  | XFin a, XFin b => Qc_eqb a b
  | _, _ => false
  end.

(** A scenario whose four numbers are finite. *)
Definition graph (id name : string) (l m i r : Qc) (color : string) : LoanGraph xnum :=
  {| id := id; name := name;
     loanAmount := XFin l; monthlyRental := XFin m;
     interestRate := XFin i; rentalIncrease := XFin r;
     color := color |}.

(** The component's initial scenario: 1 600 000 at 10 %, 16 000 a month
    escalating by 6 % a year. *)
Definition scenario1 : LoanGraph xnum :=
  {| id := "1"%string; name := "Scenario 1"%string;
     loanAmount := XFin (of_Z 1600000); monthlyRental := XFin (of_Z 16000);
     interestRate := decimal 1 1; rentalIncrease := decimal 106 2;
     color := "rgb(255, 99, 132)"%string |}.

End Exact.

(** ** The list of scenarios *)

(** The palette [colors] of the component. *)
Definition colors : list string :=
  [ "rgb(255, 99, 132)"; "rgb(54, 162, 235)"; "rgb(75, 192, 192)";
    "rgb(255, 205, 86)"; "rgb(153, 102, 255)"; "rgb(255, 159, 64)" ]%string.

(** [n.toString()] on a count: its decimal digits (the source's numbers
    print this way below [10^21]). *)
Definition toString (n : nat) : string :=
  NilEmpty.string_of_uint (Nat.to_uint n).

(** [s.slice(n)]: [s] without its first [n] characters. *)
Fixpoint string_skip (n : nat) (s : string) : string :=
  match n, s with
  | O, _ => s
  | S _, EmptyString => EmptyString
  | S n', String _ s' => string_skip n' s'
  end.

(** [s.replace(pat, rep)] for a string pattern and a replacement without
    [$]: the first occurrence of [pat] in [s], if any, becomes [rep]. *)
Fixpoint replace_first (pat rep s : string) : string :=
  if String.prefix pat s then
    String.append rep (string_skip (String.length pat) s)
  else
    match s with
    | EmptyString => EmptyString
    | String c s' => String c (replace_first pat rep s')
    end.

(** Whether the character [c] occurs in [s]. *)
Fixpoint occurs (c : ascii) (s : string) : bool :=
  match s with
  | EmptyString => false
  | String a s' => Ascii.eqb a c || occurs c s'
  end.

(** The fill colour [chartData] derives from a scenario's colour. *)
Definition fill_of (color : string) : string :=
  replace_first ")" ", 0.2)" (replace_first "rgb" "rgba" color).

Section Scenarios.

Context {num : Type} {N : Number num}.

(** A decimal literal of the source, [n / 10^k]: in either arithmetic the
    quotient of the two integers is the value of the literal. *)
Definition literal (n : Z) (k : nat) : num := div (lit n) (lit (10 ^ Z.of_nat k)).

(** [useState<LoanGraph[]>([...])]: the one scenario the component starts
    with. *)
Definition initial_graphs : list (LoanGraph num) :=
  [ {| id := "1"; name := "Scenario 1";
       loanAmount := lit 1600000; monthlyRental := lit 16000;
       interestRate := literal 1 1; rentalIncrease := literal 106 2;
       color := "rgb(255, 99, 132)" |} ].

(** [addGraph], as a function of the current list.  [colors[colorIndex]]
    is read with a default the index never reaches. *)
Definition addGraph (graphs : list (LoanGraph num)) : list (LoanGraph num) :=
  let newId := toString (List.length graphs + 1) in
  let colorIndex := List.length graphs mod List.length colors in
  graphs ++
  [ {| id := newId;
       name := String.append "Scenario " newId;
       loanAmount := lit 1600000;
       monthlyRental := lit 16000;
       interestRate := literal 1 1;
       rentalIncrease := literal 106 2;
       color := nth colorIndex colors EmptyString |} ].

(** [removeGraph]. *)
Definition removeGraph (id' : string) (graphs : list (LoanGraph num)) : list (LoanGraph num) :=
  filter (fun graph => negb (String.eqb (id graph) id')) graphs.

(** [Partial<LoanGraph>]: each field present or not. *)
Record Updates : Type := {
  u_id : option string;
  u_name : option string;
  u_loanAmount : option num;
  u_monthlyRental : option num;
  u_interestRate : option num;
  u_rentalIncrease : option num;
  u_color : option string
}.

Definition or_else {A : Type} (update : option A) (current : A) : A :=
  match update with Some v => v | None => current end.

(** [{ ...graph, ...updates }] *)
Definition spread (graph : LoanGraph num) (updates : Updates) : LoanGraph num :=
  {| id := or_else (u_id updates) (id graph);
     name := or_else (u_name updates) (name graph);
     loanAmount := or_else (u_loanAmount updates) (loanAmount graph);
     monthlyRental := or_else (u_monthlyRental updates) (monthlyRental graph);
     interestRate := or_else (u_interestRate updates) (interestRate graph);
     rentalIncrease := or_else (u_rentalIncrease updates) (rentalIncrease graph);
     color := or_else (u_color updates) (color graph) |}.

(** [updateGraph]. *)
Definition updateGraph (id' : string) (updates : Updates)
    (graphs : list (LoanGraph num)) : list (LoanGraph num) :=
  map (fun graph => if String.eqb (id graph) id' then spread graph updates else graph)
      graphs.

(** The updates the panels send: one field each, never the identifier nor
    the colour. *)
Definition no_updates : Updates :=
  {| u_id := None; u_name := None; u_loanAmount := None; u_monthlyRental := None;
     u_interestRate := None; u_rentalIncrease := None; u_color := None |}.

Definition rename (s : string) : Updates :=
  {| u_id := None; u_name := Some s; u_loanAmount := None; u_monthlyRental := None;
     u_interestRate := None; u_rentalIncrease := None; u_color := None |}.

Definition set_loanAmount (v : num) : Updates :=
  {| u_id := None; u_name := None; u_loanAmount := Some v; u_monthlyRental := None;
     u_interestRate := None; u_rentalIncrease := None; u_color := None |}.

Definition set_monthlyRental (v : num) : Updates :=
  {| u_id := None; u_name := None; u_loanAmount := None; u_monthlyRental := Some v;
     u_interestRate := None; u_rentalIncrease := None; u_color := None |}.

Definition set_interestRate (v : num) : Updates :=
  {| u_id := None; u_name := None; u_loanAmount := None; u_monthlyRental := None;
     u_interestRate := Some v; u_rentalIncrease := None; u_color := None |}.

Definition set_rentalIncrease (v : num) : Updates :=
  {| u_id := None; u_name := None; u_loanAmount := None; u_monthlyRental := None;
     u_interestRate := None; u_rentalIncrease := Some v; u_color := None |}.

(** What the user can do to the list: the [+ Add] button, the [x] button
    of the panel at a position, and the inputs of that panel. *)
Inductive Event : Type :=
| ClickAdd : Event
| ClickRemove (position : nat) : Event
| Change (position : nat) (field : EditField) : Event
with EditField : Type :=
| Name (s : string)
| LoanAmount (v : num)
| MonthlyRental (v : num)
| InterestRate (v : num)
| RentalIncrease (v : num).

Definition updates_of (field : EditField) : Updates :=
  match field with
  | Name s => rename s
  | LoanAmount v => set_loanAmount v
  | MonthlyRental v => set_monthlyRental v
  | InterestRate v => set_interestRate v
  | RentalIncrease v => set_rentalIncrease v
  end.

(** The handler an event runs.  A panel exists only for a scenario of the
    list, and its [x] button only while [graphs.length > 1]; an event on
    what is not on screen changes nothing. *)
Definition handle (graphs : list (LoanGraph num)) (e : Event) : list (LoanGraph num) :=
  match e with
  | ClickAdd => addGraph graphs
  | ClickRemove position =>
      match nth_error graphs position with
      | Some graph =>
          if 1 <? List.length graphs then removeGraph (id graph) graphs else graphs
      | None => graphs
      end
  | Change position field =>
      match nth_error graphs position with
      | Some graph => updateGraph (id graph) (updates_of field) graphs
      | None => graphs
      end
  end.

(** The list after a sequence of events, from the initial one. *)
Definition after (events : list Event) : list (LoanGraph num) :=
  fold_left handle events initial_graphs.

(** ** The chart *)

(** One entry of [datasets]. *)
Record Dataset : Type := {
  label : string;
  data : list num;
  borderColor : string;
  backgroundColor : string;
  tension : num
}.

Record ChartData : Type := {
  labels : list nat;
  datasets : list Dataset
}.

(** [chartData], as a function of [graphs] and [maxYears]. *)
Definition chartData (graphs : list (LoanGraph num)) (maxYears : nat) : ChartData :=
  match graphs with
  | [] => {| labels := []; datasets := [] |}
  | firstGraph :: _ =>
      let baseData := calculateLoanData firstGraph maxYears in
      {| labels := years baseData;
         datasets :=
           map (fun graph =>
                  let data := calculateLoanData graph maxYears in
                  {| label := name graph;
                     data := loanAmounts data;
                     borderColor := color graph;
                     backgroundColor :=
                       replace_first ")" ", 0.2)"
                         (replace_first "rgb" "rgba" (color graph));
                     tension := literal 1 1 |})
               graphs |}
  end.

End Scenarios.

Arguments Updates num : clear implicits.
Arguments Event num : clear implicits.
Arguments EditField num : clear implicits.
Arguments Dataset num : clear implicits.
Arguments ChartData num : clear implicits.

(** ** Calls on the heap *)

Section Heap.

Context {num : Type} {N : Number num}.

(** The arrays of the JavaScript heap that matter here: [years],
    [loanAmounts] and [yearlyBreakdown] of each call made so far. *)
Inductive Cell : Type :=
| YearCells (ys : list nat)
| NumberCells (xs : list num)
| RecordCells (rs : list (YearRecord num)).

(** The heap: the cell at position [a] is the array with address [a]. *)
Definition Heap : Type := list Cell.

(** [[]]: a new, empty array after everything allocated before. *)
Definition alloc (c : Cell) (h : Heap) : nat * Heap := (List.length h, h ++ [c]).

Fixpoint write (a : nat) (c : Cell) (h : Heap) : Heap :=
  match h, a with
  | [], _ => []
  | _ :: rest, O => c :: rest
  | c0 :: rest, S a' => c0 :: write a' c rest
  end.

(** [array.push(v)] on the array at [a]; an address that holds no array
    of the kind is left alone (the source never has one). *)
Definition push_year (a : nat) (v : nat) (h : Heap) : Heap :=
  match nth_error h a with
  | Some (YearCells ys) => write a (YearCells (ys ++ [v])) h
  | _ => h
  end.

Definition push_number (a : nat) (v : num) (h : Heap) : Heap :=
  match nth_error h a with
  | Some (NumberCells xs) => write a (NumberCells (xs ++ [v])) h
  | _ => h
  end.

Definition push_record (a : nat) (v : YearRecord num) (h : Heap) : Heap :=
  match nth_error h a with
  | Some (RecordCells rs) => write a (RecordCells (rs ++ [v])) h
  | _ => h
  end.

(** The [let] variables of a call. *)
Record Locals : Type := {
  l_currentLoanAmount : num;
  l_yearlyRentalIncome : num;
  l_yearsToZero : option num
}.

(** The object a call returns: three array addresses and a number. *)
Record LoanDataRef : Type := {
  years_at : nat;
  loanAmounts_at : nat;
  yearsToZero_of : option num;
  yearlyBreakdown_at : nat
}.

(** One iteration of the loop, on the heap. *)
Definition loop_body_on (graph : LoanGraph num) (years loanAmounts yearlyBreakdown : nat)
    (s : Locals * Heap) (yr : nat) : Locals * Heap :=
  let '(locals, h) := s in
  let loanInterestRate := interestRate graph in
  let rentalIncreasePerYear := rentalIncrease graph in
  let loanAmountStart := l_currentLoanAmount locals in
  let annualInterest := mul (l_currentLoanAmount locals) loanInterestRate in
  let previousAmount := l_currentLoanAmount locals in
  let currentLoanAmount :=
    sub (add (l_currentLoanAmount locals) annualInterest) (l_yearlyRentalIncome locals) in
  let h := push_record yearlyBreakdown
             {| year := yr + 1;
                loanAmountStart := loanAmountStart;
                interest := annualInterest;
                rentalIncome := l_yearlyRentalIncome locals;
                loanAmountEnd := currentLoanAmount |} h in
  let yearlyRentalIncome := mul (l_yearlyRentalIncome locals) rentalIncreasePerYear in
  let h := push_year years (yr + 1) h in
  let h := push_number loanAmounts currentLoanAmount h in
  let yearsToZero :=
    if gt previousAmount (lit 0) && le currentLoanAmount (lit 0)
       && is_null (l_yearsToZero locals)
    then Some (crossing_point graph yr previousAmount yearlyRentalIncome)
    else l_yearsToZero locals in
  ({| l_currentLoanAmount := currentLoanAmount;
      l_yearlyRentalIncome := yearlyRentalIncome;
      l_yearsToZero := yearsToZero |}, h).

(** A call of [calculateLoanData] in a render whose component state is
    [app], on the heap [h] that earlier calls have left. *)
Definition calculateLoanData_on (app : AppState num) (graph : LoanGraph num) (h : Heap)
    : LoanDataRef * Heap :=
  let currentLoanAmount := loanAmount graph in
  let yearlyRentalIncome := mul (lit 12) (monthlyRental graph) in
  let numYears := maxYears app in
  let '(years, h) := alloc (YearCells []) h in
  let '(loanAmounts, h) := alloc (NumberCells []) h in
  let '(yearlyBreakdown, h) := alloc (RecordCells []) h in
  let h := push_year years 0 h in
  let h := push_number loanAmounts currentLoanAmount h in
  let '(locals, h) :=
    fold_left (loop_body_on graph years loanAmounts yearlyBreakdown) (seq 0 numYears)
      ({| l_currentLoanAmount := currentLoanAmount;
          l_yearlyRentalIncome := yearlyRentalIncome;
          l_yearsToZero := None |}, h) in
  ({| years_at := years;
      loanAmounts_at := loanAmounts;
      yearsToZero_of := l_yearsToZero locals;
      yearlyBreakdown_at := yearlyBreakdown |}, h).

(** What a caller reads through a returned object. *)
Definition read (h : Heap) (r : LoanDataRef) : option (LoanData num) :=
  match nth_error h (years_at r), nth_error h (loanAmounts_at r),
        nth_error h (yearlyBreakdown_at r) with
  | Some (YearCells ys), Some (NumberCells xs), Some (RecordCells rs) =>
      Some {| years := ys; loanAmounts := xs;
              yearsToZero := yearsToZero_of r; yearlyBreakdown := rs |}
  | _, _, _ => None
  end.

(** The three arrays of a call in progress, after the heap it started on. *)
Definition frame_of (h : Heap) (st : LoopState num) : Heap :=
  h ++ [ YearCells (st_years st); NumberCells (st_loanAmounts st);
         RecordCells (st_yearlyBreakdown st) ].

Definition locals_of (st : LoopState num) : Locals :=
  {| l_currentLoanAmount := currentLoanAmount st;
     l_yearlyRentalIncome := yearlyRentalIncome st;
     l_yearsToZero := st_yearsToZero st |}.

End Heap.

Arguments Cell num : clear implicits.
Arguments Heap num : clear implicits.
Arguments Locals num : clear implicits.


(** ** The payoff line of a panel, in exact arithmetic *)

Module Panel.

Import Exact.






End Panel.

(** * Properties

    ** The shape of the loop's results, for any arithmetic *)

Section Structure.

Context {num : Type} {N : Number num}.

Implicit Types (graph : LoanGraph num) (n i k : nat).

Lemma run_loop_S graph n :
  run_loop graph (S n) = loop_body graph (run_loop graph n) n.
Proof.
  unfold run_loop. rewrite seq_S, fold_left_app. reflexivity.
Qed.

Lemma balance_0 graph : balance graph 0 = loanAmount graph.
Proof. reflexivity. Qed.

Lemma rental_0 graph : rental graph 0 = mul (lit 12) (monthlyRental graph).
Proof. reflexivity. Qed.

Lemma balance_S graph i :
  balance graph (S i) =
  sub (add (balance graph i) (mul (balance graph i) (interestRate graph)))
      (rental graph i).
Proof. unfold balance, rental. rewrite run_loop_S. reflexivity. Qed.

Lemma rental_S graph i :
  rental graph (S i) = mul (rental graph i) (rentalIncrease graph).
Proof. unfold rental. rewrite run_loop_S. reflexivity. Qed.

(** The rental of year [n + 1] is the first year's, multiplied [n] times
    by the escalation factor. *)
Lemma rental_iterated graph n :
  rental graph n =
  Nat.iter n (fun a => mul a (rentalIncrease graph)) (mul (lit 12) (monthlyRental graph)).
Proof.
  induction n as [|n IH]; [reflexivity|].
  rewrite rental_S, IH. reflexivity.
Qed.

Lemma years_run graph n : st_years (run_loop graph n) = seq 0 (S n).
Proof.
  induction n as [|n IH]; [reflexivity|].
  rewrite run_loop_S. cbn [loop_body st_years]. rewrite IH.
  rewrite (seq_S (S n) 0). f_equal. simpl. f_equal. f_equal. lia.
Qed.

Lemma loanAmounts_run graph n :
  st_loanAmounts (run_loop graph n) = map (balance graph) (seq 0 (S n)).
Proof.
  induction n as [|n IH]; [reflexivity|].
  rewrite (seq_S (S n) 0), map_app, <- IH. cbn [map Nat.add].
  unfold balance at 1. rewrite run_loop_S. reflexivity.
Qed.

Lemma yearlyBreakdown_run graph n :
  st_yearlyBreakdown (run_loop graph n) = map (record_of graph) (seq 0 n).
Proof.
  induction n as [|n IH]; [reflexivity|].
  rewrite seq_S, map_app, <- IH. cbn [map Nat.add].
  unfold record_of. rewrite balance_S.
  rewrite run_loop_S. reflexivity.
Qed.

Lemma find_snoc {A : Type} (f : A -> bool) (l : list A) (x : A) :
  find f (l ++ [x]) =
  match find f l with
  | Some y => Some y
  | None => if f x then Some x else None
  end.
Proof.
  induction l as [|a l IH]; simpl; [reflexivity|].
  destruct (f a); [reflexivity | exact IH].
Qed.

(** [yearsToZero] is decided by the first iteration whose test succeeds. *)
Lemma yearsToZero_run graph n :
  st_yearsToZero (run_loop graph n) =
  option_map (payoff_at graph) (find (crossing graph) (seq 0 n)).
Proof.
  induction n as [|n IH]; [reflexivity|].
  rewrite seq_S, find_snoc. cbn [Nat.add].
  rewrite run_loop_S. cbn [loop_body st_yearsToZero].
  fold (balance graph n) (rental graph n).
  rewrite <- balance_S, <- rental_S. fold (crossing graph n).
  fold (payoff_at graph n). rewrite IH.
  destruct (find (crossing graph) (seq 0 n)) as [j|]; cbn [option_map is_null].
  - rewrite andb_false_r. reflexivity.
  - rewrite andb_true_r. destruct (crossing graph n); reflexivity.
Qed.

Lemma nth_error_map_seq {A : Type} (f : nat -> A) (len j : nat) :
  nth_error (map f (seq 0 len)) j = if j <? len then Some (f j) else None.
Proof.
  destruct (Nat.ltb_spec j len) as [H|H].
  - rewrite nth_error_map, nth_error_seq.
    destruct (Nat.ltb_spec j len); [reflexivity | lia].
  - apply nth_error_None. rewrite length_map, length_seq. exact H.
Qed.

(** [find] over [0, 1, ..., n - 1] returns the least index that passes. *)
Lemma find_seq_least (p : nat -> bool) n k :
  k < n -> p k = true -> (forall j, j < k -> p j = false) ->
  find p (seq 0 n) = Some k.
Proof.
  intros Hk Hp Hleast. induction n as [|n IH]; [lia|].
  rewrite seq_S, find_snoc. cbn [Nat.add].
  destruct (Nat.eq_dec k n) as [->|Hne].
  - destruct (find p (seq 0 n)) as [j|] eqn:E.
    + apply find_some in E. destruct E as [Hin Hj].
      apply in_seq in Hin. rewrite Hleast in Hj by lia. discriminate.
    + rewrite Hp. reflexivity.
  - rewrite IH by lia. reflexivity.
Qed.

Lemma find_seq_some (p : nat -> bool) n k :
  find p (seq 0 n) = Some k ->
  k < n /\ p k = true /\ forall j, j < k -> p j = false.
Proof.
  induction n as [|n IH]; [discriminate|].
  rewrite seq_S, find_snoc. cbn [Nat.add].
  destruct (find p (seq 0 n)) as [j|] eqn:E.
  - intros H. injection H as ->. destruct (IH eq_refl) as (? & ? & ?).
    repeat split; [lia | assumption | assumption].
  - destruct (p n) eqn:Hp; [|discriminate].
    intros H. injection H as <-. repeat split; [lia | exact Hp |].
    intros j Hj. apply (find_none _ _ E). apply in_seq. lia.
Qed.

(** The crossing test on the returned balances is the loop's own test. *)
Lemma crosses_at_loanAmounts graph n j :
  crosses_at (loanAmounts (calculateLoanData graph n)) (S j) =
  (j <? n) && crossing graph j.
Proof.
  unfold crosses_at, calculateLoanData. cbn [loanAmounts].
  rewrite loanAmounts_run, !nth_error_map_seq.
  destruct (Nat.ltb_spec j n) as [H|H].
  - destruct (Nat.ltb_spec j (S n)); [|lia].
    destruct (Nat.ltb_spec (S j) (S n)); [|lia]. reflexivity.
  - destruct (j <? S n); [|reflexivity].
    destruct (Nat.ltb_spec (S j) (S n)); [lia | reflexivity].
Qed.

(** A payoff point is recorded exactly when the returned balances cross. *)
Lemma payoff_present_iff graph n :
  yearsToZero (calculateLoanData graph n) <> None <->
  exists k, crosses_at (loanAmounts (calculateLoanData graph n)) k = true.
Proof.
  unfold calculateLoanData at 1. cbn [yearsToZero]. rewrite yearsToZero_run.
  split.
  - destruct (find (crossing graph) (seq 0 n)) as [j|] eqn:E;
      [| intros H; exfalso; apply H; reflexivity].
    intros _. apply find_seq_some in E. destruct E as (Hj & Hc & _).
    exists (S j). rewrite crosses_at_loanAmounts, Hc.
    destruct (Nat.ltb_spec j n); [reflexivity | lia].
  - intros [[|j] Hk]; [discriminate|].
    rewrite crosses_at_loanAmounts in Hk. apply andb_true_iff in Hk.
    destruct Hk as [Hj Hc]. apply Nat.ltb_lt in Hj.
    destruct (find (crossing graph) (seq 0 n)) as [j'|] eqn:E; [discriminate|].
    rewrite (find_none _ _ E j) in Hc; [discriminate | apply in_seq; lia].
Qed.

(** The first crossing of the returned balances fixes the payoff point,
    for this horizon and for every longer one. *)
Lemma payoff_first_crossing graph n k :
  crosses_at (loanAmounts (calculateLoanData graph n)) k = true ->
  (forall j, j < k -> crosses_at (loanAmounts (calculateLoanData graph n)) j = false) ->
  1 <= k <= n /\ crossing graph (k - 1) = true /\
  forall n', k <= n' ->
    yearsToZero (calculateLoanData graph n') = Some (payoff_at graph (k - 1)).
Proof.
  destruct k as [|j]; [discriminate|]. intros Hk Hleast.
  rewrite crosses_at_loanAmounts in Hk. apply andb_true_iff in Hk.
  destruct Hk as [Hj Hc]. apply Nat.ltb_lt in Hj.
  replace (S j - 1) with j by lia.
  split; [lia|]. split; [exact Hc|]. intros n' Hn'.
  unfold calculateLoanData. cbn [yearsToZero]. rewrite yearsToZero_run.
  rewrite (find_seq_least (crossing graph) n' j); [reflexivity | lia | exact Hc |].
  intros j' Hj'. specialize (Hleast (S j') ltac:(lia)).
  rewrite crosses_at_loanAmounts in Hleast.
  destruct (Nat.ltb_spec j' n); [exact Hleast | lia].
Qed.

(** Only the four numbers of a scenario reach the loop. *)
Lemma run_loop_presentation (g1 g2 : LoanGraph num) n :
  loanAmount g1 = loanAmount g2 ->
  monthlyRental g1 = monthlyRental g2 ->
  interestRate g1 = interestRate g2 ->
  rentalIncrease g1 = rentalIncrease g2 ->
  run_loop g1 n = run_loop g2 n.
Proof.
  intros Hl Hm Hi Hr. induction n as [|n IH].
  - unfold run_loop, init_state. cbn [seq fold_left]. rewrite Hl, Hm. reflexivity.
  - rewrite !run_loop_S, IH. unfold loop_body, crossing_point.
    rewrite Hi, Hr. reflexivity.
Qed.

End Structure.

(** ** Exact arithmetic on finite scenarios *)

Import Exact.

Lemma Qc_eqb_eq a b : Qc_eqb a b = true <-> a = b.
Proof.
  unfold Qc_eqb. rewrite Qceq_alt. destruct (a ?= b)%Qc; split; congruence.
Qed.

Lemma Qc_ltb_lt a b : Qc_ltb a b = true <-> (a < b)%Qc.
Proof.
  unfold Qc_ltb. rewrite Qclt_alt. destruct (a ?= b)%Qc; split; congruence.
Qed.

Lemma Qc_leb_le a b : Qc_leb a b = true <-> (a <= b)%Qc.
Proof.
  unfold Qc_leb. rewrite Qcle_alt. destruct (a ?= b)%Qc; split; congruence.
Qed.

(** Goals on canonical rationals, read on [Q]. *)
Ltac to_Q :=
  unfold of_Z in *;
  unfold Qcle, Qclt, Qcdiv, Qcminus, Qcplus, Qcmult, Qcopp, Qcinv, Q2Qc in *;
  cbn [this] in *;
  repeat (rewrite Qred_correct in * );
  unfold inject_Z in *.

Lemma of_Z_succ z : of_Z (z + 1) = (of_Z z + 1)%Qc.
Proof.
  apply Qc_is_canon. unfold of_Z, Qcplus, Q2Qc. cbn [this].
  rewrite !Qred_correct. rewrite inject_Z_plus. reflexivity.
Qed.

Lemma Qcinv_pos (a : Qc) : (0 < a -> 0 < / a)%Qc.
Proof.
  intros H. to_Q. apply Qinv_lt_0_compat. exact H.
Qed.

Lemma Qcdiv_unit_interval (b d : Qc) : (0 < b -> b <= d -> 0 < b / d /\ b / d <= 1)%Qc.
Proof.
  intros Hb Hbd.
  assert (Hd : (0 < d)%Qc) by (eapply Qclt_le_trans; eassumption).
  assert (Hi : (0 < / d)%Qc) by (apply Qcinv_pos; exact Hd).
  unfold Qcdiv. split.
  - rewrite <- (Qcmult_0_l (/ d)). apply Qcmult_lt_compat_r; assumption.
  - rewrite <- (Qcmult_inv_r d) by (apply not_eq_sym, Qclt_not_eq; exact Hd).
    apply Qcmult_le_compat_r; [exact Hbd | apply Qclt_le_weak; exact Hi].
Qed.

Lemma of_Z_12_neq : of_Z 12 <> 0%Qc.
Proof. intros H. apply Qc_eqb_eq in H. discriminate H. Qed.

Lemma interpolation_fraction (b a i : Qc) :
  (0 < b)%Qc -> (b + b * i - a <= 0)%Qc ->
  (0 < a / of_Z 12 - b * i / of_Z 12)%Qc ->
  (0 < b / (a / of_Z 12 - b * i / of_Z 12) / of_Z 12)%Qc /\
  (b / (a / of_Z 12 - b * i / of_Z 12) / of_Z 12 <= 1)%Qc.
Proof.
  intros Hb He Hd.
  assert (HD : (0 < a - b * i)%Qc).
  { replace (a - b * i)%Qc with ((a / of_Z 12 - b * i / of_Z 12) * of_Z 12)%Qc
      by (field; exact of_Z_12_neq).
    revert Hd. generalize (a / of_Z 12 - b * i / of_Z 12)%Qc. intros d Hd.
    to_Q. lra. }
  replace (b / (a / of_Z 12 - b * i / of_Z 12) / of_Z 12)%Qc
    with (b / (a - b * i))%Qc.
  - apply Qcdiv_unit_interval; [exact Hb|]. clear Hd HD. to_Q. lra.
  - field. split; [exact of_Z_12_neq|].
    apply not_eq_sym, Qclt_not_eq. exact HD.
Qed.

Section ExactFacts.

Variables (id name color : string) (l m i r : Qc).

Let g : LoanGraph xnum := graph id name l m i r color.

Lemma rental_exact n : rental g n = XFin (of_Z 12 * m * r ^ n).
Proof.
  induction n as [|n IH].
  - rewrite rental_0. cbn. f_equal. ring.
  - rewrite rental_S, IH. cbn. f_equal. ring.
Qed.

Lemma balance_finite n : exists b, balance g n = XFin b.
Proof.
  induction n as [|n [b IH]].
  - exists l. reflexivity.
  - rewrite balance_S, IH, rental_exact. cbn. eexists. reflexivity.
Qed.

Lemma balance_step n b :
  balance g n = XFin b ->
  balance g (S n) = XFin (b + b * i - of_Z 12 * m * r ^ n).
Proof.
  intros Hb. rewrite balance_S, Hb, rental_exact. reflexivity.
Qed.


Lemma xdiv_fin (a b : Qc) : b <> 0%Qc -> xdiv (XFin a) (XFin b) = XFin (a / b).
Proof.
  intros Hb. unfold xdiv.
  destruct (Qc_eqb b 0) eqn:E; [apply Qc_eqb_eq in E; contradiction | reflexivity].
Qed.

Lemma xdiv_twelve (a : Qc) : xdiv (XFin a) (XFin (of_Z 12)) = XFin (a / of_Z 12).
Proof. reflexivity. Qed.

Lemma xsub_fin (a b : Qc) : xsub (XFin a) (XFin b) = XFin (a - b).
Proof. reflexivity. Qed.

Lemma xmul_fin (a b : Qc) : xmul (XFin a) (XFin b) = XFin (a * b).
Proof. reflexivity. Qed.

Lemma xadd_fin (a b : Qc) : xadd (XFin a) (XFin b) = XFin (a + b).
Proof. reflexivity. Qed.

(** The interpolation of the specification on finite values. *)
Lemma spec_payoff_point_fin (y : nat) (b a : Qc) :
  spec_payoff_point g y (XFin b) (XFin a) =
  let d := (a / of_Z 12 - b * i / of_Z 12)%Qc in
  if Qc_ltb 0 d then XFin (of_Z (Z.of_nat y - 1) + b / d / of_Z 12)
  else XFin (of_Z (Z.of_nat y)).
Proof.
  unfold spec_payoff_point.
  cbn [interestRate g graph add sub mul div gt le lit number].
  rewrite xmul_fin, !xdiv_twelve, xsub_fin.
  set (d := (a / of_Z 12 - b * i / of_Z 12)%Qc). cbn zeta.
  change (xltb (XFin (of_Z 0)) (XFin d)) with (Qc_ltb 0 d).
  destruct (Qc_ltb 0 d) eqn:E; [|reflexivity].
  rewrite xdiv_fin, xdiv_twelve, xadd_fin; [reflexivity|].
  apply Qc_ltb_lt in E. apply not_eq_sym, Qclt_not_eq. exact E.
Qed.

(** [year + 1] on an integer [year]. *)
Lemma year_end n :
  add (lit (Z.of_nat n)) (lit 1) = XFin (of_Z (Z.of_nat n + 1)).
Proof.
  cbn [add lit number]. rewrite xadd_fin, of_Z_succ. reflexivity.
Qed.

(** The source's interpolation when the escalation factor is not zero:
    dividing the escalated rental by the factor gives the year's rental
    back. *)
Lemma crossing_point_nonzero n (b a : Qc) :
  r <> 0%Qc ->
  crossing_point g n (XFin b) (XFin (a * r)) =
  spec_payoff_point g (n + 1) (XFin b) (XFin a).
Proof.
  intros Hr. unfold crossing_point, spec_payoff_point. rewrite year_end.
  cbn [rentalIncrease interestRate g graph div Exact.number].
  rewrite (xdiv_fin _ _ Hr), Qcdiv_mult_l by exact Hr.
  replace (Z.of_nat (n + 1) - 1)%Z with (Z.of_nat n) by lia.
  replace (Z.of_nat (n + 1)) with (Z.of_nat n + 1)%Z by lia.
  reflexivity.
Qed.

(** With a zero factor the division is [0 / 0]: the comparison with NaN
    fails and the source falls to the end of the year. *)
Lemma crossing_point_zero n (b a : Qc) :
  r = 0%Qc ->
  crossing_point g n (XFin b) (XFin (a * r)) = XFin (of_Z (Z.of_nat n + 1)).
Proof.
  intros Hr. unfold crossing_point. rewrite year_end.
  cbn [rentalIncrease interestRate g graph div Exact.number].
  rewrite Hr, Qcmult_0_r. reflexivity.
Qed.

Lemma crossing_fin n b :
  balance g n = XFin b ->
  crossing g n = Qc_ltb 0 b && Qc_leb (b + b * i - of_Z 12 * m * r ^ n) 0.
Proof.
  intros Hb. unfold crossing. rewrite (balance_step _ _ Hb), Hb. reflexivity.
Qed.

(** A first crossing in iteration [n] is placed after year [n] and not
    after year [n + 1]. *)
Lemma payoff_at_interval n :
  crossing g n = true ->
  exists q, payoff_at g n = XFin q /\
            (of_Z (Z.of_nat n) < q)%Qc /\ (q <= of_Z (Z.of_nat n + 1))%Qc.
Proof.
  destruct (balance_finite n) as [b Hb].
  rewrite (crossing_fin _ _ Hb), andb_true_iff, Qc_ltb_lt, Qc_leb_le.
  intros [Hpos Hend].
  unfold payoff_at. rewrite Hb, rental_S, rental_exact.
  cbn [mul number rentalIncrease g graph]. rewrite xmul_fin.
  set (a := (of_Z 12 * m * r ^ n)%Qc) in *.
  assert (Hlast : (of_Z (Z.of_nat n) < of_Z (Z.of_nat n + 1))%Qc).
  { rewrite of_Z_succ. generalize (of_Z (Z.of_nat n)). intros z. to_Q. lra. }
  destruct (Qc_eq_dec r 0) as [Hr|Hr].
  - rewrite (crossing_point_zero _ _ _ Hr). eexists. split; [reflexivity|].
    split; [exact Hlast | apply Qcle_refl].
  - rewrite (crossing_point_nonzero _ _ _ Hr), spec_payoff_point_fin. cbn zeta.
    replace (Z.of_nat (n + 1) - 1)%Z with (Z.of_nat n) by lia.
    replace (Z.of_nat (n + 1)) with (Z.of_nat n + 1)%Z by lia.
    destruct (Qc_ltb 0 (a / of_Z 12 - b * i / of_Z 12)) eqn:E.
    + apply Qc_ltb_lt in E.
      destruct (interpolation_fraction _ _ _ Hpos Hend E) as [H0 H1].
      eexists. split; [reflexivity|].
      rewrite of_Z_succ. revert H0 H1.
      generalize (b / (a / of_Z 12 - b * i / of_Z 12) / of_Z 12)%Qc.
      generalize (of_Z (Z.of_nat n)). intros z t H0 H1.
      split; to_Q; lra.
    + eexists. split; [reflexivity|].
      split; [exact Hlast | apply Qcle_refl].
Qed.

End ExactFacts.

(** * The properties of the specification

    ** Shape of the trajectory, for any arithmetic *)

Section Trajectory.

Context {num : Type} {N : Number num}.

Implicit Types (graph : LoanGraph num) (n i : nat).

(** C4 — chaining invariant: for every index [i] below the horizon, the
    [i]-th record of [yearlyBreakdown] starts at [loanAmounts[i]] and ends
    at [loanAmounts[i + 1]]. *)
Theorem breakdown_chains_with_balances graph n i :
  i < n ->
  exists rec a b,
    nth_error (yearlyBreakdown (calculateLoanData graph n)) i = Some rec /\
    nth_error (loanAmounts (calculateLoanData graph n)) i = Some a /\
    nth_error (loanAmounts (calculateLoanData graph n)) (i + 1) = Some b /\
    loanAmountStart rec = a /\ loanAmountEnd rec = b.
Proof.
  intros Hi. unfold calculateLoanData. cbn [yearlyBreakdown loanAmounts].
  rewrite yearlyBreakdown_run, loanAmounts_run, !nth_error_map_seq.
  destruct (Nat.ltb_spec i n); [|lia].
  destruct (Nat.ltb_spec i (S n)); [|lia].
  destruct (Nat.ltb_spec (i + 1) (S n)); [|lia].
  exists (record_of graph i), (balance graph i), (balance graph (i + 1)).
  repeat split. cbn [record_of loanAmountEnd]. f_equal. lia.
Qed.

(** C5 — the trajectory spans the whole horizon: [years] is [0, 1, ..., n],
    [loanAmounts] has the same length and starts with the loan amount
    itself, [yearlyBreakdown] has one record per year numbered [1 .. n], and
    each balance follows from the one before by the same step whatever its
    sign: nothing is clamped and no iteration is skipped. *)
Theorem trajectory_spans_horizon graph n :
  years (calculateLoanData graph n) = seq 0 (n + 1) /\
  List.length (years (calculateLoanData graph n)) = n + 1 /\
  List.length (loanAmounts (calculateLoanData graph n)) = n + 1 /\
  nth_error (loanAmounts (calculateLoanData graph n)) 0 = Some (loanAmount graph) /\
  List.length (yearlyBreakdown (calculateLoanData graph n)) = n /\
  map year (yearlyBreakdown (calculateLoanData graph n)) = seq 1 n /\
  forall i a,
    i < n ->
    nth_error (loanAmounts (calculateLoanData graph n)) i = Some a ->
    nth_error (loanAmounts (calculateLoanData graph n)) (i + 1) =
    Some (sub (add a (mul a (interestRate graph))) (rental graph i)).
Proof.
  unfold calculateLoanData. cbn [years yearlyBreakdown loanAmounts].
  rewrite years_run, yearlyBreakdown_run, loanAmounts_run.
  rewrite !length_map, !length_seq, map_map. cbn [record_of year].
  replace (S n) with (n + 1) by lia.
  repeat split.
  - replace (n + 1) with (S n) by lia. reflexivity.
  - rewrite <- seq_shift. apply map_ext. intros j. lia.
  - intros i a Hi. rewrite !nth_error_map_seq.
    destruct (Nat.ltb_spec i (n + 1)); [|lia].
    destruct (Nat.ltb_spec (i + 1) (n + 1)); [|lia].
    intros Ha. injection Ha as <-.
    replace (i + 1) with (S i) by lia. rewrite balance_S. reflexivity.
Qed.

(** C10 — the presentation fields do not interfere: two scenarios that
    agree on [loanAmount], [monthlyRental], [interestRate] and
    [rentalIncrease] (and may differ in [id], [name] and [color]) give the
    same data for the same horizon. *)
Theorem presentation_fields_do_not_interfere (g1 g2 : LoanGraph num) n :
  loanAmount g1 = loanAmount g2 ->
  monthlyRental g1 = monthlyRental g2 ->
  interestRate g1 = interestRate g2 ->
  rentalIncrease g1 = rentalIncrease g2 ->
  calculateLoanData g1 n = calculateLoanData g2 n.
Proof.
  intros Hl Hm Hi Hr. unfold calculateLoanData.
  rewrite (run_loop_presentation g1 g2 n Hl Hm Hi Hr). reflexivity.
Qed.

End Trajectory.

(** ** Arithmetic of the projection, on finite scenarios in exact arithmetic *)

Section Amortisation.

Variables (id name color : string) (l m i r : Qc).

Let g : LoanGraph xnum := graph id name l m i r color.

(** The source's payoff point is the specification's whenever the
    escalation factor is not zero. *)
Lemma payoff_at_spec n :
  r <> 0%Qc ->
  payoff_at g n = spec_payoff_point g (n + 1) (balance g n) (rental g n).
Proof.
  intros Hr. destruct (balance_finite id name color l m i r n) as [b Hb].
  unfold payoff_at, g. rewrite Hb, rental_S, !rental_exact.
  cbn [mul number rentalIncrease graph]. rewrite xmul_fin.
  apply crossing_point_nonzero. exact Hr.
Qed.

(** Without rounding, the rental of year [y] is the closed form
    [12 * monthlyRental * rentalIncrease ^ (y - 1)], and the record of the
    year is made of exact sums and products. *)
Theorem yearly_record_recurrence n y :
  1 <= y <= n ->
  exists rec b,
    nth_error (yearlyBreakdown (calculateLoanData g n)) (y - 1) = Some rec /\
    year rec = y /\
    loanAmountStart rec = XFin b /\
    interest rec = XFin (b * i) /\
    rentalIncome rec = XFin (of_Z 12 * m * r ^ (y - 1)) /\
    loanAmountEnd rec = XFin (b + b * i - of_Z 12 * m * r ^ (y - 1)).
Proof.
  intros Hy. unfold calculateLoanData. cbn [yearlyBreakdown].
  rewrite yearlyBreakdown_run, nth_error_map_seq.
  destruct (Nat.ltb_spec (y - 1) n); [|lia].
  destruct (balance_finite id name color l m i r (y - 1)) as [b Hb].
  unfold g.
  exists (record_of (graph id name l m i r color) (y - 1)), b.
  cbn [record_of year loanAmountStart interest rentalIncome loanAmountEnd].
  rewrite (balance_step id name color l m i r _ _ Hb), Hb, rental_exact.
  repeat split. lia.
Qed.

(** Without rounding, the payoff point of a first crossing at index [k]
    lies after [k - 1] and not after [k]. *)
Theorem payoff_point_at_first_crossing n :
  (yearsToZero (calculateLoanData g n) <> None <->
   exists k, crosses_at (loanAmounts (calculateLoanData g n)) k = true) /\
  (forall k,
     crosses_at (loanAmounts (calculateLoanData g n)) k = true ->
     (forall j, j < k -> crosses_at (loanAmounts (calculateLoanData g n)) j = false) ->
     exists q,
       yearsToZero (calculateLoanData g n) = Some (XFin q) /\
       (of_Z (Z.of_nat k - 1) < q)%Qc /\ (q <= of_Z (Z.of_nat k))%Qc /\
       forall n', k <= n' -> yearsToZero (calculateLoanData g n') = Some (XFin q)).
Proof.
  split; [apply payoff_present_iff|].
  intros k Hk Hleast.
  destruct (payoff_first_crossing g n k Hk Hleast) as (Hrange & Hc & Hall).
  destruct (payoff_at_interval id name color l m i r (k - 1) Hc)
    as (q & Hq & Hlo & Hhi).
  fold g in Hq. exists q.
  replace (Z.of_nat (k - 1)) with (Z.of_nat k - 1)%Z in Hlo, Hhi by lia.
  replace (Z.of_nat k - 1 + 1)%Z with (Z.of_nat k) in Hhi by lia.
  rewrite (Hall n) by lia. rewrite Hq.
  repeat split; try assumption.
  intros n' Hn'. rewrite (Hall n' Hn'), Hq. reflexivity.
Qed.

End Amortisation.

(** Without rounding and on finite numbers: with a zero interest rate
    every record ends at its start balance less its rental, and with an
    escalation factor of one every record carries the first year's rental. *)
Theorem zero_interest_and_flat_rental (id name color : string) (l m i r : Qc) n :
  Forall (fun rec => loanAmountEnd rec = sub (loanAmountStart rec) (rentalIncome rec))
         (yearlyBreakdown (calculateLoanData (graph id name l m 0%Qc r color) n)) /\
  Forall (fun rec => rentalIncome rec = XFin (of_Z 12 * m))
         (yearlyBreakdown (calculateLoanData (graph id name l m i 1%Qc color) n)).
Proof.
  unfold calculateLoanData. cbn [yearlyBreakdown].
  rewrite !yearlyBreakdown_run. split; apply Forall_forall; intros rec Hin;
    apply in_map_iff in Hin; destruct Hin as (j & <- & _);
    cbn [record_of loanAmountStart rentalIncome loanAmountEnd].
  - destruct (balance_finite id name color l m 0%Qc r j) as [b Hb].
    rewrite (balance_step id name color l m 0%Qc r _ _ Hb), Hb, rental_exact.
    cbn [sub number]. rewrite xsub_fin. f_equal. ring.
  - rewrite rental_exact. f_equal. rewrite Qcpower_1. ring.
Qed.

(** ** Scenarios outside the usual range *)




(** ** Concrete runs, in exact arithmetic and on doubles *)

Lemma same_eq (x y : xnum) : same x y = true -> x = y.
Proof.
  destruct x as [|s|a], y as [|t|b]; cbn [same]; try discriminate.
  - reflexivity.
  - intros H. apply eqb_prop in H. rewrite H. reflexivity.
  - intros H. apply Qc_eqb_eq in H. rewrite H. reflexivity.
Qed.

(** Closes [x = y] on exact values by evaluation. *)
Ltac evaluate_exact := apply same_eq; vm_compute; reflexivity.


(** C3 at a zero escalation factor: [zero_escalation] crosses zero in year
    1 with a monthly rental of 10 and no interest, so the interpolation of
    the specification gives 10 months, 5/6 of a year; the source divides
    the escalated rental, 0, by the factor, 0, and records 1. *)
Theorem payoff_with_zero_escalation :
  (crosses_at (loanAmounts (calculateLoanData (@zero_escalation xnum _) 1)) 1 = true /\
   yearsToZero (calculateLoanData (@zero_escalation xnum _) 1) = Some (lit 1) /\
   spec_payoff_point (@zero_escalation xnum _) 1
     (balance zero_escalation 0) (rental zero_escalation 0)
   = XFin (Q2Qc (5 # 6))) /\
  (crosses_at (loanAmounts (calculateLoanData (@zero_escalation Binary64.float _) 1)) 1 = true /\
   yearsToZero (calculateLoanData (@zero_escalation Binary64.float _) 1) = Some (lit 1) /\
   spec_payoff_point (@zero_escalation Binary64.float _) 1
     (balance zero_escalation 0) (rental zero_escalation 0)
   = div (lit 10) (lit 12)).
Proof.
  split; (split; [vm_compute; reflexivity | split]).
  - unfold calculateLoanData. cbn [yearsToZero]. rewrite yearsToZero_run.
    replace (find (crossing zero_escalation) (seq 0 1)) with (Some 0)
      by (vm_compute; reflexivity).
    cbn [option_map]. apply f_equal. evaluate_exact.
  - evaluate_exact.
  - vm_compute; reflexivity.
  - vm_compute; reflexivity.
Qed.

(** C7 — the component's initial scenario over 20 years: the first record
    is 1 600 000, 160 000, 192 000, 1 568 000, and a payoff point is
    recorded, between year 10 and year 11; on doubles and in exact
    arithmetic alike. *)
Theorem initial_scenario_first_year_and_payoff :
  (nth_error (yearlyBreakdown (calculateLoanData Binary64.scenario1 20)) 0
   = Some {| year := 1;
             loanAmountStart := lit 1600000;
             interest := lit 160000;
             rentalIncome := lit 192000;
             loanAmountEnd := lit 1568000 |} /\
   exists p, yearsToZero (calculateLoanData Binary64.scenario1 20) = Some p /\
             gt p (lit 10) = true /\ le p (lit 11) = true /\ le p (lit 20) = true) /\
  (exists rec,
     nth_error (yearlyBreakdown (calculateLoanData Exact.scenario1 20)) 0 = Some rec /\
     year rec = 1 /\
     loanAmountStart rec = lit 1600000 /\
     interest rec = lit 160000 /\
     rentalIncome rec = lit 192000 /\
     loanAmountEnd rec = lit 1568000) /\
  (exists p, yearsToZero (calculateLoanData Exact.scenario1 20) = Some p /\
             gt p (lit 10) = true /\ le p (lit 11) = true /\ le p (lit 20) = true).
Proof.
  split; [split|split].
  - vm_compute; reflexivity.
  - eexists. split; [vm_compute; reflexivity|].
    repeat split; vm_compute; reflexivity.
  - unfold calculateLoanData. cbn [yearlyBreakdown]. rewrite yearlyBreakdown_run.
    eexists. split; [reflexivity|]. cbn [record_of year loanAmountStart
      interest rentalIncome loanAmountEnd].
    split; [reflexivity|]. repeat split; evaluate_exact.
  - unfold calculateLoanData. cbn [yearsToZero]. rewrite yearsToZero_run.
    replace (find (crossing Exact.scenario1) (seq 0 20)) with (Some 10)
      by (vm_compute; reflexivity).
    cbn [option_map]. eexists. split; [reflexivity|].
    repeat split; vm_compute; reflexivity.
Qed.

(** ** The general statements at concrete scenarios *)

(** C4 at index 10 of the initial scenario over 20 years, on doubles. *)
Lemma breakdown_chains_with_balances_witness :
  10 < 20 /\
  exists rec a b,
    nth_error (yearlyBreakdown (calculateLoanData Binary64.scenario1 20)) 10 = Some rec /\
    nth_error (loanAmounts (calculateLoanData Binary64.scenario1 20)) 10 = Some a /\
    nth_error (loanAmounts (calculateLoanData Binary64.scenario1 20)) (10 + 1) = Some b /\
    loanAmountStart rec = a /\ loanAmountEnd rec = b.
Proof.
  split; [lia | apply breakdown_chains_with_balances; lia].
Defined.


(** C10 at the initial scenario and a copy under another identifier, name
    and colour. *)
Lemma presentation_fields_do_not_interfere_witness :
  calculateLoanData Binary64.scenario1 20
  = calculateLoanData
      {| id := "2"; name := "Scenario 2";
         loanAmount := lit 1600000; monthlyRental := lit 16000;
         interestRate := Binary64.decimal 1 1; rentalIncrease := Binary64.decimal 106 2;
         color := "rgb(54, 162, 235)" |} 20.
Proof.
  apply presentation_fields_do_not_interfere; reflexivity.
Defined.

(** ** Rounding

    The interval of the payoff point and the closed form of the rental are
    statements of exact arithmetic.  On doubles the division that undoes the escalation
    need not give the year's rental back: for [paid_at_year_end],
    [120 * 1.1 / 1.1] is the double just below 120, the interpolated month
    count is just above 12, and the payoff point recorded for a balance
    that reaches zero exactly at the end of year 1 is the double just
    above 1. *)
Remark payoff_rounds_past_year_end :
  nth_error (loanAmounts (calculateLoanData Binary64.paid_at_year_end 1)) 1
  = Some (lit 0) /\
  yearsToZero (calculateLoanData Binary64.paid_at_year_end 1)
  = Some (S754_finite false 4503599627370497 (-52)) /\
  spec_payoff_point Binary64.paid_at_year_end 1
    (balance Binary64.paid_at_year_end 0) (rental Binary64.paid_at_year_end 0)
  = lit 1.
Proof.
  repeat split; vm_compute; reflexivity.
Qed.

(** * The component around the projection

    ** The list of scenarios and the chart *)

Lemma toString_inj (a b : nat) : toString a = toString b -> a = b.
Proof.
  unfold toString. intros H. apply Unsigned.to_uint_inj.
  assert (E : Some (Nat.to_uint a) = Some (Nat.to_uint b))
    by (rewrite <- !NilEmpty.usu, H; reflexivity).
  injection E as E. exact E.
Qed.

Lemma eqb_neq_false (a b : string) : a <> b -> String.eqb a b = false.
Proof. intros H. apply String.eqb_neq. exact H. Qed.

Lemma prefix_empty (s : string) : String.prefix EmptyString s = true.
Proof. destruct s; reflexivity. Qed.

Lemma replace_first_paren (rep body rest : string) :
  occurs ")" body = false ->
  replace_first ")" rep (String.append body (String ")" rest))
  = String.append body (String.append rep rest).
Proof.
  induction body as [|c body IH]; intros Hocc.
  - cbn [String.append replace_first String.prefix].
    destruct (ascii_dec ")" ")") as [_|E]; [|congruence].
    rewrite prefix_empty. reflexivity.
  - cbn [occurs] in Hocc. apply orb_false_iff in Hocc. destruct Hocc as [Hc Hocc].
    apply Ascii.eqb_neq in Hc.
    cbn [String.append replace_first String.prefix].
    destruct (ascii_dec ")" c) as [E|_]; [congruence|].
    rewrite (IH Hocc). reflexivity.
Qed.

(** X10 — the fill colour of [rgb(body)] is [rgba(body, 0.2)], for any
    body without a closing parenthesis. *)
Theorem fill_of_rgb (body : string) :
  occurs ")" body = false ->
  fill_of (String.append "rgb(" (String.append body ")"))
  = String.append "rgba(" (String.append body ", 0.2)").
Proof.
  intros Hocc. unfold fill_of.
  change (replace_first "rgb" "rgba" (String.append "rgb(" (String.append body ")")))
    with (String.append (String.append "rgba(" body) (String ")" EmptyString)).
  - rewrite replace_first_paren; [reflexivity | exact Hocc].
Qed.

Section ScenarioList.

Context {num : Type} {N : Number num}.

Implicit Types (graphs : list (LoanGraph num)) (graph : LoanGraph num).

Lemma ids_addGraph graphs :
  map id (addGraph graphs) = map id graphs ++ [toString (List.length graphs + 1)].
Proof. unfold addGraph. rewrite map_app. reflexivity. Qed.

Lemma ids_removeGraph i graphs :
  map id (removeGraph i graphs) =
  filter (fun j => negb (String.eqb j i)) (map id graphs).
Proof.
  unfold removeGraph. induction graphs as [|g gs IH]; [reflexivity|].
  cbn [filter map]. destruct (String.eqb (id g) i); cbn [negb map]; rewrite IH; reflexivity.
Qed.

Lemma after_snoc (events : list (Event num)) e :
  after (events ++ [e]) = handle (after events) e.
Proof. unfold after. rewrite fold_left_app. reflexivity. Qed.

Lemma after_adds n :
  map id (@after num N (repeat ClickAdd n)) = map toString (seq 1 (n + 1)).
Proof.
  induction n as [|n IH]; [reflexivity|].
  replace (repeat (@ClickAdd num) (S n)) with (repeat (@ClickAdd num) n ++ [ClickAdd])
    by (rewrite <- repeat_cons; reflexivity).
  rewrite after_snoc. cbn [handle]. rewrite ids_addGraph, IH.
  replace (List.length (after (repeat ClickAdd n))) with (n + 1).
  - replace (S n + 1) with (S (n + 1)) by lia. rewrite (seq_S (n + 1) 1), map_app.
    cbn [map]. do 3 f_equal. lia.
  - rewrite <- (length_map id), IH, length_map, length_seq. reflexivity.
Qed.

Lemma NoDup_toString_seq a n : NoDup (map toString (seq a n)).
Proof.
  apply Injective_map_NoDup; [intros x y; apply toString_inj | apply seq_NoDup].
Qed.


(** X1 — while scenarios are only added, their identifiers are the
    decimal numbers 1, 2, ..., in order, and no two are equal. *)
Theorem ids_distinct_while_only_adding n :
  map id (@after num N (repeat ClickAdd n)) = map toString (seq 1 (n + 1)) /\
  NoDup (map id (@after num N (repeat ClickAdd n))).
Proof.
  split; [apply after_adds|]. rewrite after_adds. apply NoDup_toString_seq.
Qed.

Lemma length_removeGraph i graphs :
  List.length (removeGraph i graphs) + count_occ string_dec (map id graphs) i
  = List.length graphs.
Proof.
  unfold removeGraph. induction graphs as [|g gs IH]; [reflexivity|].
  cbn [filter map count_occ List.length].
  destruct (string_dec (id g) i) as [E|E].
  - rewrite (proj2 (String.eqb_eq _ _) E). cbn [negb]. lia.
  - rewrite (eqb_neq_false _ _ E). cbn [negb List.length]. lia.
Qed.

(** X2 — [removeGraph] keeps exactly the scenarios with another
    identifier, removes as many scenarios as carry the identifier, and
    changes nothing when none does. *)
Theorem removeGraph_removes_every_match i graphs :
  (forall graph, In graph (removeGraph i graphs) <-> In graph graphs /\ id graph <> i) /\
  List.length (removeGraph i graphs) + count_occ string_dec (map id graphs) i
  = List.length graphs /\
  (~ In i (map id graphs) -> removeGraph i graphs = graphs).
Proof.
  split; [|split; [apply length_removeGraph|]].
  - intros graph. unfold removeGraph. rewrite filter_In, negb_true_iff.
    rewrite String.eqb_neq. reflexivity.
  - intros Hnot. unfold removeGraph. induction graphs as [|g gs IH]; [reflexivity|].
    cbn [filter]. cbn [map In] in Hnot.
    rewrite eqb_neq_false by (intros E; apply Hnot; left; exact E).
    cbn [negb]. f_equal. apply IH. intros Hin. apply Hnot. right. exact Hin.
Qed.

Lemma NoDup_ids_removeGraph i graphs :
  NoDup (map id graphs) -> NoDup (map id (removeGraph i graphs)).
Proof. intros H. rewrite ids_removeGraph. apply NoDup_filter. exact H. Qed.

(** X3 — while the identifiers are distinct, the [x] button never empties
    the list: it removes exactly one scenario when more than one is shown,
    nothing otherwise, and the identifiers stay distinct. *)
Theorem remove_button_leaves_a_scenario graphs position :
  NoDup (map id graphs) -> graphs <> [] ->
  handle graphs (ClickRemove position) <> [] /\
  NoDup (map id (handle graphs (ClickRemove position))) /\
  (position < List.length graphs -> 1 < List.length graphs ->
   List.length (handle graphs (ClickRemove position)) = List.length graphs - 1).
Proof.
  intros Hnodup Hne. cbn [handle].
  destruct (nth_error graphs position) as [g|] eqn:Hg.
  - destruct (Nat.ltb_spec 1 (List.length graphs)) as [Hlen|Hlen].
    + assert (Hcount : count_occ string_dec (map id graphs) (id g) = 1).
      { apply NoDup_count_occ'; [exact Hnodup|].
        apply in_map. eapply nth_error_In. exact Hg. }
      pose proof (length_removeGraph (id g) graphs) as Hl.
      split; [|split].
      * intros E. rewrite E in Hl. cbn [List.length] in Hl. lia.
      * apply NoDup_ids_removeGraph. exact Hnodup.
      * intros _ _. lia.
    + split; [exact Hne|]. split; [exact Hnodup|]. intros _ H. lia.
  - split; [exact Hne|]. split; [exact Hnodup|].
    intros Hp _. apply nth_error_None in Hg. lia.
Qed.


Lemma count_occ_filter_other (i x : string) (l : list string) :
  x <> i ->
  count_occ string_dec (filter (fun j => negb (String.eqb j i)) l) x
  = count_occ string_dec l x.
Proof.
  intros Hx. induction l as [|a l IH]; [reflexivity|].
  cbn [filter count_occ]. destruct (string_dec a i) as [E|E].
  - rewrite (proj2 (String.eqb_eq _ _) E). cbn [negb].
    destruct (string_dec a x); [congruence | exact IH].
  - rewrite (eqb_neq_false _ _ E). cbn [negb count_occ].
    destruct (string_dec a x); rewrite IH; reflexivity.
Qed.

(** X4 — identifiers collide after a removal: from [n + 1] scenarios
    added in a row, removing any but the last and adding one again gives
    two scenarios with the identifier [n + 1]. *)
Theorem ids_collide_after_removal n position :
  1 <= n -> position < n ->
  count_occ string_dec
    (map id (@after num N (repeat ClickAdd n ++ [ClickRemove position; ClickAdd])))
    (toString (n + 1)) = 2.
Proof.
  intros Hn Hp.
  change [ClickRemove position; @ClickAdd num] with ([ClickRemove position] ++ [@ClickAdd num]).
  rewrite app_assoc, !after_snoc.
  pose proof (after_adds n) as Hids.
  set (graphs := after (repeat ClickAdd n)) in *.
  assert (Hlen : List.length graphs = n + 1)
    by (rewrite <- (length_map id), Hids, length_map, length_seq; reflexivity).
  assert (Hg : exists g, nth_error graphs position = Some g /\ id g = toString (position + 1)).
  { destruct (nth_error graphs position) as [g|] eqn:E.
    - exists g. split; [reflexivity|].
      pose proof (map_nth_error id _ _ E) as Hm. rewrite Hids in Hm.
      rewrite nth_error_map, nth_error_seq in Hm.
      destruct (Nat.ltb_spec position (n + 1)); [|lia].
      cbn [option_map] in Hm. injection Hm as Hm. rewrite <- Hm. f_equal. lia.
    - apply nth_error_None in E. lia. }
  destruct Hg as (g & Hg & Hid).
  cbn [handle]. rewrite Hg.
  destruct (Nat.ltb_spec 1 (List.length graphs)); [|lia].
  assert (Hnodup : NoDup (map id graphs)) by (rewrite Hids; apply NoDup_toString_seq).
  assert (Hrem : List.length (removeGraph (id g) graphs) = n).
  { pose proof (length_removeGraph (id g) graphs) as Hl.
    rewrite (proj1 (NoDup_count_occ' string_dec _) Hnodup) in Hl; [lia|].
    apply in_map. eapply nth_error_In. exact Hg. }
  rewrite ids_addGraph, Hrem, count_occ_app, ids_removeGraph.
  rewrite count_occ_filter_other
    by (rewrite Hid; intros E; apply toString_inj in E; lia).
  rewrite (proj1 (NoDup_count_occ' string_dec _) Hnodup).
  - cbn [count_occ]. destruct (string_dec (toString (n + 1)) (toString (n + 1))); [reflexivity | congruence].
  - rewrite Hids. apply in_map. apply in_seq. lia.
Qed.

(** X5 — the list can be emptied through the buttons, although [x] is
    shown only while two scenarios are listed: two scenarios that share an
    identifier leave together, and the chart is then empty. *)
Theorem every_scenario_can_be_removed :
  exists events : list (Event num),
    after events = [] /\
    forall n, chartData (after events) n = {| labels := []; datasets := [] |}.
Proof.
  exists [ClickAdd; ClickRemove 0; ClickAdd; ClickRemove 0].
  split; [reflexivity | intros n; reflexivity].
Qed.

(** X6 — [updateGraph] with updates that carry no identifier keeps the
    identifiers in order, leaves every scenario with another identifier as
    it is, and changes nothing when no scenario has the identifier. *)
Theorem updateGraph_keeps_the_list_shape i updates graphs :
  u_id updates = None ->
  map id (updateGraph i updates graphs) = map id graphs /\
  (forall position graph,
     nth_error graphs position = Some graph -> id graph <> i ->
     nth_error (updateGraph i updates graphs) position = Some graph) /\
  (~ In i (map id graphs) -> updateGraph i updates graphs = graphs).
Proof.
  intros Hid. unfold updateGraph. split; [|split].
  - rewrite map_map. apply map_ext. intros g.
    destruct (String.eqb (id g) i); [|reflexivity].
    cbn [spread id]. rewrite Hid. reflexivity.
  - intros position g Hg Hne. rewrite nth_error_map, Hg. cbn [option_map].
    rewrite (eqb_neq_false _ _ Hne). reflexivity.
  - intros Hnot. rewrite <- (map_id graphs) at 2. apply map_ext_in.
    intros g Hg. rewrite eqb_neq_false; [reflexivity|].
    intros E. apply Hnot. rewrite <- E. apply in_map. exact Hg.
Qed.

Lemma calculateLoanData_spread graph updates n :
  u_loanAmount updates = None -> u_monthlyRental updates = None ->
  u_interestRate updates = None -> u_rentalIncrease updates = None ->
  calculateLoanData (spread graph updates) n = calculateLoanData graph n.
Proof.
  intros Hl Hm Hi Hr. unfold calculateLoanData.
  rewrite (run_loop_presentation (spread graph updates) graph n);
    [reflexivity | | | |]; cbn [spread loanAmount monthlyRental interestRate rentalIncrease].
  - rewrite Hl. reflexivity.
  - rewrite Hm. reflexivity.
  - rewrite Hi. reflexivity.
  - rewrite Hr. reflexivity.
Qed.

Lemma chart_series graphs n :
  map data (datasets (chartData graphs n))
  = map (fun graph => loanAmounts (calculateLoanData graph n)) graphs.
Proof.
  destruct graphs as [|g gs]; [reflexivity|].
  cbn [chartData datasets]. rewrite map_map. reflexivity.
Qed.

(** X7 — updates that carry none of the four numbers (a new name or
    colour) change no computed data: every scenario's [calculateLoanData],
    the chart's labels and every series stay the same. *)
Theorem presentation_updates_keep_every_series i updates graphs n :
  u_loanAmount updates = None -> u_monthlyRental updates = None ->
  u_interestRate updates = None -> u_rentalIncrease updates = None ->
  map (fun graph => calculateLoanData graph n) (updateGraph i updates graphs)
  = map (fun graph => calculateLoanData graph n) graphs /\
  labels (chartData (updateGraph i updates graphs) n) = labels (chartData graphs n) /\
  map data (datasets (chartData (updateGraph i updates graphs) n))
  = map data (datasets (chartData graphs n)).
Proof.
  intros Hl Hm Hi Hr.
  assert (Hdata : forall g,
            calculateLoanData (if String.eqb (id g) i then spread g updates else g) n
            = calculateLoanData g n).
  { intros g. destruct (String.eqb (id g) i); [|reflexivity].
    apply calculateLoanData_spread; assumption. }
  unfold updateGraph. split; [|split].
  - rewrite map_map. apply map_ext. exact Hdata.
  - destruct graphs as [|g gs]; [reflexivity|]. cbn [map chartData labels].
    rewrite Hdata. reflexivity.
  - rewrite !chart_series, map_map. apply map_ext. intros g.
    rewrite Hdata. reflexivity.
Qed.


Lemma handle_keeps_palette graphs e :
  Forall (fun graph => In (color graph) colors) graphs ->
  Forall (fun graph => In (color graph) colors) (handle graphs e).
Proof.
  intros H. destruct e as [|position|position field]; cbn [handle].
  - unfold addGraph. apply Forall_app. split; [exact H|].
    constructor; [|constructor]. cbn [color]. apply nth_In.
    apply Nat.mod_upper_bound. discriminate.
  - destruct (nth_error graphs position) as [g|]; [|exact H].
    destruct (1 <? List.length graphs); [|exact H].
    unfold removeGraph. apply Forall_forall. intros x Hx.
    apply filter_In in Hx. destruct Hx as [Hx _].
    revert x Hx. apply Forall_forall. exact H.
  - destruct (nth_error graphs position) as [g|]; [|exact H].
    unfold updateGraph. apply Forall_map. revert H. apply Forall_impl.
    intros x Hx. destruct (String.eqb (id x) (id g)); [|exact Hx].
    destruct field; exact Hx.
Qed.

Lemma after_keeps_palette (events : list (Event num)) :
  Forall (fun graph => In (color graph) colors) (after events).
Proof.
  induction events as [|e events IH] using rev_ind.
  - constructor; [|constructor]. left. reflexivity.
  - rewrite after_snoc. apply handle_keeps_palette. exact IH.
Qed.

(** X8 — whatever the user does, every series of the chart is drawn in
    a colour [rgb(...)] of the palette and filled with the same colour as
    [rgba(..., 0.2)]. *)
Theorem chart_colours_come_from_the_palette (events : list (Event num)) n :
  Forall (fun d =>
            In (borderColor d) colors /\
            exists body,
              borderColor d = String.append "rgb(" (String.append body ")") /\
              backgroundColor d = String.append "rgba(" (String.append body ", 0.2)"))
         (datasets (chartData (after events) n)).
Proof.
  pose proof (after_keeps_palette events) as H.
  destruct (after events) as [|g gs]; [constructor|].
  cbn [chartData datasets]. apply Forall_map. revert H. apply Forall_impl.
  intros x Hx. cbn [borderColor backgroundColor]. split; [exact Hx|].
  cbn [colors In] in Hx.
  destruct Hx as [<-|[<-|[<-|[<-|[<-|[<-|[]]]]]]];
    [ exists "255, 99, 132"%string | exists "54, 162, 235"%string
    | exists "75, 192, 192"%string | exists "255, 205, 86"%string
    | exists "153, 102, 255"%string | exists "255, 159, 64"%string ];
    split; reflexivity.
Qed.

(** X9 — for a non-empty list the chart's labels are the years
    [0 .. maxYears], there is one series per scenario, in order, under the
    scenario's name and colour, and every series has one value per label. *)
Theorem chart_series_align_with_the_axis graphs n :
  graphs <> [] ->
  labels (chartData graphs n) = seq 0 (n + 1) /\
  map label (datasets (chartData graphs n)) = map name graphs /\
  map borderColor (datasets (chartData graphs n)) = map color graphs /\
  Forall (fun d => List.length (data d) = List.length (labels (chartData graphs n)))
         (datasets (chartData graphs n)).
Proof.
  intros Hne. destruct graphs as [|g gs]; [congruence|].
  cbn [chartData labels datasets]. unfold calculateLoanData at 1. cbn [years].
  rewrite years_run, !map_map. cbn [label borderColor].
  replace (S n) with (n + 1) by lia.
  repeat split. apply Forall_map, Forall_forall. intros x _.
  cbn [data]. unfold calculateLoanData. cbn [loanAmounts years].
  rewrite loanAmounts_run, years_run, length_map, !length_seq. reflexivity.
Qed.

Lemma firstn_map_seq {A : Type} (f : nat -> A) k m :
  firstn k (map f (seq 0 (k + m))) = map f (seq 0 k).
Proof.
  rewrite seq_app, map_app, firstn_app, length_map, length_seq.
  replace (k - k) with 0 by lia. cbn [firstn]. rewrite app_nil_r.
  apply firstn_all2. rewrite length_map, length_seq. lia.
Qed.

(** X11 — a longer horizon extends the trajectory: the years, balances
    and records of the first [n] years do not depend on how many more years
    are computed. *)
Theorem longer_horizon_extends_the_trajectory (graph : LoanGraph num) n m :
  firstn (n + 1) (years (calculateLoanData graph (n + m))) = years (calculateLoanData graph n) /\
  firstn (n + 1) (loanAmounts (calculateLoanData graph (n + m)))
  = loanAmounts (calculateLoanData graph n) /\
  firstn n (yearlyBreakdown (calculateLoanData graph (n + m)))
  = yearlyBreakdown (calculateLoanData graph n).
Proof.
  unfold calculateLoanData. cbn [years loanAmounts yearlyBreakdown].
  rewrite !years_run, !loanAmounts_run, !yearlyBreakdown_run.
  replace (S (n + m)) with ((n + 1) + m) by lia.
  replace (S n) with (n + 1) by lia.
  split; [|split].
  - rewrite <- (map_id (seq 0 (n + 1 + m))), <- (map_id (seq 0 (n + 1))).
    apply firstn_map_seq.
  - apply firstn_map_seq.
  - apply firstn_map_seq.
Qed.

End ScenarioList.

(** ** The payoff line and the balances, in exact arithmetic *)






Section SingleCrossing.

Variables (id name color : string) (l m i r : Qc).

Let g : LoanGraph xnum := graph id name l m i r color.

Hypothesis (Hm : (0 <= m)%Qc) (Hi : (- (1) <= i)%Qc) (Hr : (0 <= r)%Qc).



End SingleCrossing.


(** ** The statements above at concrete lists and scenarios *)

(** X3 at the two scenarios present after one addition. *)
Lemma remove_button_leaves_a_scenario_witness :
  (NoDup (map id (@after Binary64.float _ [ClickAdd])) /\
   @after Binary64.float _ [ClickAdd] <> []) /\
  handle (@after Binary64.float _ [ClickAdd]) (ClickRemove 0) <> [] /\
  NoDup (map id (handle (@after Binary64.float _ [ClickAdd]) (ClickRemove 0))) /\
  (0 < List.length (@after Binary64.float _ [ClickAdd]) ->
   1 < List.length (@after Binary64.float _ [ClickAdd]) ->
   List.length (handle (@after Binary64.float _ [ClickAdd]) (ClickRemove 0))
   = List.length (@after Binary64.float _ [ClickAdd]) - 1).
Proof.
  assert (H : NoDup (map id (@after Binary64.float _ [ClickAdd])) /\
              @after Binary64.float _ [ClickAdd] <> []).
  { split; [|discriminate].
    constructor; [intros [E|[]]; discriminate E|].
    constructor; [intros []|constructor]. }
  split; [exact H|].
  exact (remove_button_leaves_a_scenario _ 0 (proj1 H) (proj2 H)).
Defined.

(** X4 at two scenarios, the first removed. *)
Lemma ids_collide_after_removal_witness :
  (1 <= 1 /\ 0 < 1) /\
  count_occ string_dec
    (map id (@after Binary64.float _ (repeat ClickAdd 1 ++ [ClickRemove 0; ClickAdd])))
    (toString (1 + 1)) = 2.
Proof.
  split; [lia | apply ids_collide_after_removal; lia].
Defined.

(** X6 at a renaming of scenario 2 among three. *)
Lemma updateGraph_keeps_the_list_shape_witness :
  u_id (@rename Binary64.float "Flat") = None /\
  map id (updateGraph "2" (rename "Flat") (@after Binary64.float _ [ClickAdd; ClickAdd]))
  = map id (@after Binary64.float _ [ClickAdd; ClickAdd]) /\
  (forall position graph,
     nth_error (@after Binary64.float _ [ClickAdd; ClickAdd]) position = Some graph ->
     id graph <> "2"%string ->
     nth_error (updateGraph "2" (rename "Flat") (@after Binary64.float _ [ClickAdd; ClickAdd]))
               position = Some graph) /\
  (~ In "2"%string (map id (@after Binary64.float _ [ClickAdd; ClickAdd])) ->
   updateGraph "2" (rename "Flat") (@after Binary64.float _ [ClickAdd; ClickAdd])
   = @after Binary64.float _ [ClickAdd; ClickAdd]).
Proof.
  split; [reflexivity | apply updateGraph_keeps_the_list_shape; reflexivity].
Defined.

(** X7 at a renaming of the initial scenario, over 20 years. *)
Lemma presentation_updates_keep_every_series_witness :
  map (fun graph => calculateLoanData graph 20)
      (updateGraph "1" (rename "Flat") (@initial_graphs Binary64.float _))
  = map (fun graph => calculateLoanData graph 20) (@initial_graphs Binary64.float _) /\
  labels (chartData (updateGraph "1" (rename "Flat") (@initial_graphs Binary64.float _)) 20)
  = labels (chartData (@initial_graphs Binary64.float _) 20) /\
  map data (datasets (chartData (updateGraph "1" (rename "Flat")
                                   (@initial_graphs Binary64.float _)) 20))
  = map data (datasets (chartData (@initial_graphs Binary64.float _) 20)).
Proof.
  apply presentation_updates_keep_every_series; reflexivity.
Defined.

(** X9 at the initial list, over 20 years. *)
Lemma chart_series_align_with_the_axis_witness :
  @initial_graphs Binary64.float _ <> [] /\
  labels (chartData (@initial_graphs Binary64.float _) 20) = seq 0 (20 + 1) /\
  map label (datasets (chartData (@initial_graphs Binary64.float _) 20))
  = map name (@initial_graphs Binary64.float _) /\
  map borderColor (datasets (chartData (@initial_graphs Binary64.float _) 20))
  = map color (@initial_graphs Binary64.float _) /\
  Forall (fun d => List.length (data d)
                   = List.length (labels (chartData (@initial_graphs Binary64.float _) 20)))
         (datasets (chartData (@initial_graphs Binary64.float _) 20)).
Proof.
  split; [discriminate | apply chart_series_align_with_the_axis; discriminate].
Defined.

(** X10 at the first colour of the palette. *)
Lemma fill_of_rgb_witness :
  occurs ")" "255, 99, 132" = false /\
  fill_of (String.append "rgb(" (String.append "255, 99, 132" ")"))
  = String.append "rgba(" (String.append "255, 99, 132" ", 0.2)").
Proof.
  split; [reflexivity | apply fill_of_rgb; reflexivity].
Defined.



(** * The projection as the source computes it

    ** The record of a year and the payoff point, for any arithmetic *)

Section Rounded.

Context {num : Type} {N : Number num}.

Implicit Types (graph : LoanGraph num) (n y k : nat).

(** C1, as amended — the per-year recurrence: for every year [y] of the
    horizon the [y]-th record carries the interest
    [balanceStart * interestRate], as rental the first year's
    [12 * monthlyRental] multiplied [y - 1] times in turn by
    [rentalIncrease] (one product, rounded as the arithmetic rounds, per
    completed year), and the end balance
    [balanceStart + interest - rental]. *)
Theorem yearly_record_by_repeated_escalation graph n y :
  1 <= y <= n ->
  exists rec,
    nth_error (yearlyBreakdown (calculateLoanData graph n)) (y - 1) = Some rec /\
    year rec = y /\
    interest rec = mul (loanAmountStart rec) (interestRate graph) /\
    rentalIncome rec =
      Nat.iter (y - 1) (fun a => mul a (rentalIncrease graph))
               (mul (lit 12) (monthlyRental graph)) /\
    loanAmountEnd rec = sub (add (loanAmountStart rec) (interest rec)) (rentalIncome rec).
Proof.
  intros Hy. unfold calculateLoanData. cbn [yearlyBreakdown].
  rewrite yearlyBreakdown_run, nth_error_map_seq.
  destruct (Nat.ltb_spec (y - 1) n); [|lia].
  exists (record_of graph (y - 1)).
  cbn [record_of year loanAmountStart interest rentalIncome loanAmountEnd].
  rewrite balance_S, rental_iterated. repeat split. lia.
Qed.


End Rounded.

(** C1, as stated, fails on doubles: in year 3 of the initial scenario the
    source has multiplied 192 000 by 1.06 twice, and the result is not the
    closed form [192000 * 1.06 ^ 2]. *)
Lemma closed_form_rental_differs_on_doubles :
  exists rec,
    nth_error (yearlyBreakdown (calculateLoanData Binary64.scenario1 20)) (3 - 1) = Some rec /\
    year rec = 3 /\
    rentalIncome rec = S754_finite false 7412467589814682 (-35) /\
    spec_rental Binary64.scenario1 3 = S754_finite false 7412467589814683 (-35) /\
    rentalIncome rec <> spec_rental Binary64.scenario1 3.
Proof.
  eexists. split; [vm_compute; reflexivity|].
  split; [reflexivity|]. split; [reflexivity|]. split; [vm_compute; reflexivity|].
  vm_compute. discriminate.
Qed.

(** C1, as amended, at year 3 of the initial scenario, on doubles. *)
Lemma yearly_record_by_repeated_escalation_witness :
  1 <= 3 <= 20 /\
  exists rec,
    nth_error (yearlyBreakdown (calculateLoanData Binary64.scenario1 20)) (3 - 1) = Some rec /\
    year rec = 3 /\
    interest rec = mul (loanAmountStart rec) (interestRate Binary64.scenario1) /\
    rentalIncome rec =
      Nat.iter (3 - 1) (fun a => mul a (rentalIncrease Binary64.scenario1))
               (mul (lit 12) (monthlyRental Binary64.scenario1)) /\
    loanAmountEnd rec = sub (add (loanAmountStart rec) (interest rec)) (rentalIncome rec).
Proof.
  split; [lia | apply yearly_record_by_repeated_escalation; lia].
Defined.



(** ** Zero interest and flat rental, on doubles *)

Module DoubleFacts.

Import Binary64.

Local Open Scope Z_scope.

(** Multiplying a double by 1.0 returns it. *)
Lemma SFmul_one (x : float) :
  valid_binary prec emax x = true -> SFmul prec emax x (of_Z 1) = x.
Proof.
  destruct x as [s|s| |s m e]; cbn [valid_binary]; intros Hv.
  - destruct s; reflexivity.
  - destruct s; reflexivity.
  - reflexivity.
  - unfold bounded, canonical_mantissa in Hv. apply andb_true_iff in Hv.
    destruct Hv as [Hc Hb]. apply Z.eqb_eq in Hc.
    change (of_Z 1) with (S754_finite false 4503599627370496 (-52)).
    cbn [SFmul]. rewrite Pos.mul_comm. cbn [Pos.mul].
    unfold binary_round_aux, shr_fexp. cbn [Zdigits2 digits2_pos].
    rewrite !Pos2Z.inj_succ.
    match goal with |- context [fexp prec emax ?a] =>
      replace a with (Z.pos (digits2_pos m) + e) by lia end.
    rewrite Hc. replace (e - (e + -52)) with 52 by lia.
    cbn [shr shr_record_of_loc iter_pos shr_1 orb].
    cbn [shr_m loc_of_shr_record round_nearest_even Zdigits2 fst snd].
    replace (e + -52 + 52) with e by lia.
    rewrite Hc, Z.sub_diag. cbn [shr shr_record_of_loc shr_m].
    rewrite Hb. destruct s; reflexivity.
Qed.


Lemma iter_pos_iter {A : Type} (f : A -> A) (p : positive) (x : A) :
  iter_pos f p x = Pos.iter f x p.
Proof.
  revert x. induction p as [p IH|p IH|]; intros x; cbn [iter_pos Pos.iter].
  - rewrite !IH, <- !Pos.iter_swap. reflexivity.
  - rewrite !IH. reflexivity.
  - reflexivity.
Qed.

Lemma shr_1_m (r : shr_record) :
  0 <= shr_m r -> shr_m (shr_1 r) = Z.div2 (shr_m r).
Proof.
  destruct r as [m rb sb]. cbn [shr_m]. intros Hm.
  destruct m as [|[q|q|]|q]; try reflexivity. lia.
Qed.

Lemma shr_iter_m (p : positive) (r : shr_record) :
  0 <= shr_m r -> shr_m (iter_pos shr_1 p r) = Z.shiftr (shr_m r) (Z.pos p).
Proof.
  intros Hm. rewrite iter_pos_iter.
  change (Z.shiftr (shr_m r) (Z.pos p)) with (Pos.iter Z.div2 (shr_m r) p).
  induction p as [|p IH] using Pos.peano_ind.
  - cbn [Pos.iter]. apply shr_1_m. exact Hm.
  - rewrite !Pos.iter_succ, shr_1_m, IH; [reflexivity|].
    rewrite IH. change (Pos.iter Z.div2 (shr_m r) p) with (Z.shiftr (shr_m r) (Z.pos p)).
    apply Z.shiftr_nonneg. exact Hm.
Qed.

Lemma shr_m_record_of_loc m l : shr_m (shr_record_of_loc m l) = m.
Proof. destruct l as [|[]]; reflexivity. Qed.

(** The mantissa and exponent [shr] leaves: a shift by [n] when [n] is
    positive, none otherwise. *)
Lemma shr_spec (r : shr_record) (e n : Z) :
  0 <= shr_m r ->
  shr_m (fst (shr r e n)) = Z.shiftr (shr_m r) (Z.max n 0) /\
  snd (shr r e n) = e + Z.max n 0.
Proof.
  intros Hm. destruct n as [|p|p]; cbn [shr fst snd Z.max Z.compare].
  - rewrite Z.shiftr_0_r. split; [reflexivity | lia].
  - split; [apply shr_iter_m; exact Hm | reflexivity].
  - rewrite Z.shiftr_0_r. split; [reflexivity | lia].
Qed.

Lemma Zdigits2_log2 (m : Z) : 0 < m -> Zdigits2 m = Z.log2 m + 1.
Proof.
  destruct m as [|p|p]; try lia. intros _. cbn [Zdigits2].
  induction p as [p IH|p IH|]; cbn [digits2_pos]; try reflexivity;
    rewrite Pos2Z.inj_succ, IH.
  - change (Z.pos p~1) with (2 * Z.pos p + 1). rewrite Z.log2_succ_double by lia. lia.
  - change (Z.pos p~0) with (2 * Z.pos p). rewrite Z.log2_double by lia. lia.
Qed.

Lemma round_nearest_even_cases m l :
  round_nearest_even m l = m \/ round_nearest_even m l = m + 1.
Proof.
  destruct l as [|[]]; cbn [round_nearest_even]; auto.
  destruct (Z.even m); auto.
Qed.


Lemma fexp_eq (t : Z) : fexp prec emax t = Z.max (t - 53) (-1074).
Proof. reflexivity. Qed.

(** Rounding returns a double when the mantissa it is given is long
    enough for its exponent. *)
Lemma binary_round_aux_valid (s : bool) (mx ex : Z) (lx : location) :
  0 < mx -> ex <= fexp prec emax (Zdigits2 mx + ex) ->
  valid_binary prec emax (binary_round_aux prec emax s mx ex lx) = true.
Proof.
  intros Hmx Hex. unfold binary_round_aux, shr_fexp.
  set (n := fexp prec emax (Zdigits2 mx + ex) - ex).
  pose proof (shr_spec (shr_record_of_loc mx lx) ex n) as H1.
  rewrite shr_m_record_of_loc in H1. specialize (H1 ltac:(lia)).
  destruct (shr (shr_record_of_loc mx lx) ex n) as [mrs' e'].
  cbn [fst snd] in H1. destruct H1 as [Hm' He'].
  set (m1 := round_nearest_even (shr_m mrs') (loc_of_shr_record mrs')).
  assert (Hm'0 : 0 <= shr_m mrs') by (rewrite Hm'; apply Z.shiftr_nonneg; lia).
  assert (Hm1 : shr_m mrs' <= m1)
    by (destruct (round_nearest_even_cases (shr_m mrs') (loc_of_shr_record mrs')) as [E|E];
        fold m1 in E; lia).
  set (n2 := fexp prec emax (Zdigits2 m1 + e') - e').
  pose proof (shr_spec (shr_record_of_loc m1 loc_Exact) e' n2) as H2.
  rewrite shr_m_record_of_loc in H2. specialize (H2 ltac:(lia)).
  destruct (shr (shr_record_of_loc m1 loc_Exact) e' n2) as [mrs'' e''].
  cbn [fst snd] in H2. destruct H2 as [Hm'' He''].
  destruct (shr_m mrs'') as [|q|q] eqn:Hq; try reflexivity.
  destruct (e'' <=? emax - prec) eqn:Hb; [|reflexivity].
  cbn [valid_binary]. unfold bounded. rewrite Hb, andb_true_r.
  unfold canonical_mantissa. apply Z.eqb_eq.
  assert (Hm1pos : 0 < m1).
  { destruct (Z.eq_dec m1 0) as [E|E]; [|lia].
    rewrite E, Z.shiftr_0_l in Hm''. lia. }
  assert (Hlog1 : Z.log2 mx - Z.max n 0 <= Z.log2 m1).
  { transitivity (Z.log2 (shr_m mrs')); [|apply Z.log2_le_mono; exact Hm1].
    rewrite Hm', Z.log2_shiftr by lia. lia. }
  assert (Hlog2 : Z.log2 (Z.pos q) = Z.log2 m1 - Z.max n2 0).
  { rewrite Hm'', Z.log2_shiftr by lia.
    assert (0 < Z.shiftr m1 (Z.max n2 0)) by lia.
    destruct (Z.le_gt_cases (Z.max n2 0) (Z.log2 m1)) as [Hle|Hgt]; [lia|].
    exfalso. assert (Z.shiftr m1 (Z.max n2 0) = 0); [|lia].
    apply Z.shiftr_eq_0; lia. }
  change (Z.pos (digits2_pos q)) with (Zdigits2 (Z.pos q)).
  rewrite Zdigits2_log2 by lia.
  unfold n2, n in *. rewrite (Zdigits2_log2 m1) in * by lia.
  rewrite (Zdigits2_log2 mx) in * by lia.
  rewrite fexp_eq in *. lia.
Qed.

Lemma canonical_digits (m : positive) (e : Z) :
  bounded prec emax m e = true ->
  fexp prec emax (Z.log2 (Z.pos m) + 1 + e) = e.
Proof.
  unfold bounded, canonical_mantissa. intros H. apply andb_true_iff in H.
  destruct H as [H _]. apply Z.eqb_eq in H.
  change (Z.pos (digits2_pos m)) with (Zdigits2 (Z.pos m)) in H.
  rewrite Zdigits2_log2 in H by lia. exact H.
Qed.

(** The product of two doubles is a double. *)
Lemma SFmul_valid (x y : float) :
  valid_binary prec emax x = true -> valid_binary prec emax y = true ->
  valid_binary prec emax (SFmul prec emax x y) = true.
Proof.
  destruct x as [sx|sx| |sx mx ex], y as [sy|sy| |sy my ey]; try reflexivity.
  cbn [valid_binary SFmul]. intros Hx Hy.
  apply binary_round_aux_valid; [lia|].
  apply canonical_digits in Hx, Hy.
  rewrite Zdigits2_log2 by lia. rewrite Pos2Z.inj_mul.
  pose proof (Z.log2_mul_below (Z.pos mx) (Z.pos my) ltac:(lia) ltac:(lia)) as Hlog.
  pose proof (Z.log2_nonneg (Z.pos mx)). pose proof (Z.log2_nonneg (Z.pos my)).
  rewrite fexp_eq in *. lia.
Qed.

End DoubleFacts.

(** C8, as amended — on doubles, with an interest rate of 0 every record
    whose start balance is not an infinity ends at its start balance less
    its rental, exactly; and with an escalation factor of 1.0 every record
    carries the same rental, the first year's, for every monthly rental
    that is a double. *)
Theorem zero_interest_and_flat_rental_on_doubles (graph : LoanGraph Binary64.float) n :
  (interestRate graph = lit 0 ->
   Forall (fun rec =>
             Binary64.is_infinity (loanAmountStart rec) = false ->
             loanAmountEnd rec = sub (loanAmountStart rec) (rentalIncome rec))
          (yearlyBreakdown (calculateLoanData graph n))) /\
  (rentalIncrease graph = lit 1 ->
   Binary64.is_double (monthlyRental graph) = true ->
   Forall (fun rec => rentalIncome rec = mul (lit 12) (monthlyRental graph))
          (yearlyBreakdown (calculateLoanData graph n))).
Proof.
  unfold calculateLoanData. cbn [yearlyBreakdown]. rewrite yearlyBreakdown_run.
  split.
  - intros Hrate. apply Forall_forall. intros rec Hin.
    apply in_map_iff in Hin. destruct Hin as (j & <- & _).
    cbn [record_of loanAmountStart rentalIncome loanAmountEnd].
    rewrite balance_S, Hrate.
    change (@lit _ Binary64.number 0) with (S754_zero false).
    destruct (balance graph j) as [s|s| |s m e]; cbn [Binary64.is_infinity];
      intros Hfin; try discriminate Hfin;
      cbn [mul add Binary64.number SFmul SFadd xorb]; try destruct s; reflexivity.
  - intros Hone Hm.
    assert (Hrental : forall j, rental graph j = mul (lit 12) (monthlyRental graph)).
    { induction j as [|j IH]; [apply rental_0|].
      rewrite rental_S, IH, Hone. apply DoubleFacts.SFmul_one.
      apply DoubleFacts.SFmul_valid; [reflexivity | exact Hm]. }
    apply Forall_forall. intros rec Hin.
    apply in_map_iff in Hin. destruct Hin as (j & <- & _).
    cbn [record_of rentalIncome]. apply Hrental.
Qed.

(** C8, as stated, fails on doubles: for [overflowing_rental] the yearly
    rental is infinite, the balance after year 1 is minus infinity, its
    interest at rate 0 is NaN, and year 2 ends at NaN where start less
    rental is minus infinity. *)
Lemma zero_interest_fails_on_overflow :
  interestRate Binary64.overflowing_rental = lit 0 /\
  exists rec,
    nth_error (yearlyBreakdown (calculateLoanData Binary64.overflowing_rental 2)) 1
    = Some rec /\
    loanAmountEnd rec = S754_nan /\
    sub (loanAmountStart rec) (rentalIncome rec) = S754_infinity true /\
    loanAmountEnd rec <> sub (loanAmountStart rec) (rentalIncome rec).
Proof.
  split; [reflexivity|]. eexists. split; [vm_compute; reflexivity|].
  split; [reflexivity|]. split; [reflexivity|]. vm_compute. discriminate.
Qed.

(** C8, as amended, at a loan of 100 against a flat rental of 10 a month
    without interest, over 20 years. *)
Lemma zero_interest_and_flat_rental_on_doubles_witness :
  (interestRate (@integer_graph Binary64.float _ 100 10 0 1) = lit 0 /\
   rentalIncrease (@integer_graph Binary64.float _ 100 10 0 1) = lit 1 /\
   Binary64.is_double (monthlyRental (@integer_graph Binary64.float _ 100 10 0 1)) = true) /\
  Forall (fun rec =>
            Binary64.is_infinity (loanAmountStart rec) = false ->
            loanAmountEnd rec = sub (loanAmountStart rec) (rentalIncome rec))
         (yearlyBreakdown (calculateLoanData (@integer_graph Binary64.float _ 100 10 0 1) 20)) /\
  Forall (fun rec =>
            rentalIncome rec
            = mul (lit 12) (monthlyRental (@integer_graph Binary64.float _ 100 10 0 1)))
         (yearlyBreakdown (calculateLoanData (@integer_graph Binary64.float _ 100 10 0 1) 20)).
Proof.
  split; [repeat split|].
  destruct (zero_interest_and_flat_rental_on_doubles
              (@integer_graph Binary64.float _ 100 10 0 1) 20) as [Hzero Hflat].
  split; [apply Hzero; reflexivity | apply Hflat; reflexivity].
Defined.

(** ** Calls on the heap *)

Section HeapFacts.

Context {num : Type} {N : Number num}.

Implicit Types (h : Heap num) (graph : LoanGraph num).

Lemma nth_error_after h (cs : list (Cell num)) k :
  nth_error (h ++ cs) (List.length h + k) = nth_error cs k.
Proof. rewrite nth_error_app2 by lia. f_equal. lia. Qed.

Lemma write_after h (cs : list (Cell num)) k c :
  write (List.length h + k) c (h ++ cs) = h ++ write k c cs.
Proof.
  induction h as [|c0 h IH]; [reflexivity|].
  cbn [List.length Nat.add app write]. rewrite IH. reflexivity.
Qed.

Lemma nth_error_here h (cs : list (Cell num)) :
  nth_error (h ++ cs) (List.length h) = nth_error cs 0.
Proof. rewrite nth_error_app2 by lia. rewrite Nat.sub_diag. reflexivity. Qed.

Lemma write_here h (cs : list (Cell num)) c :
  write (List.length h) c (h ++ cs) = h ++ write 0 c cs.
Proof.
  induction h as [|c0 h IH]; [reflexivity|].
  cbn [List.length app write]. rewrite IH. reflexivity.
Qed.

Lemma push_year_frame h ys xs rs v :
  push_year (List.length h) v (h ++ [YearCells ys; NumberCells xs; RecordCells rs])
  = h ++ [YearCells (ys ++ [v]); NumberCells xs; RecordCells rs].
Proof.
  unfold push_year. rewrite nth_error_here. cbn [nth_error].
  rewrite write_here. reflexivity.
Qed.

Lemma push_number_frame h ys xs rs v :
  push_number (List.length h + 1) v (h ++ [YearCells ys; NumberCells xs; RecordCells rs])
  = h ++ [YearCells ys; NumberCells (xs ++ [v]); RecordCells rs].
Proof.
  unfold push_number. rewrite nth_error_after. cbn [nth_error]. rewrite write_after. reflexivity.
Qed.

Lemma push_record_frame h ys xs rs v :
  push_record (List.length h + 2) v (h ++ [YearCells ys; NumberCells xs; RecordCells rs])
  = h ++ [YearCells ys; NumberCells xs; RecordCells (rs ++ [v])].
Proof.
  unfold push_record. rewrite nth_error_after. cbn [nth_error]. rewrite write_after. reflexivity.
Qed.

(** An iteration on the heap pushes onto the call's own three arrays what
    [loop_body] appends, and touches nothing else. *)
Lemma loop_body_on_frame graph h (st : LoopState num) yr :
  loop_body_on graph (List.length h) (List.length h + 1) (List.length h + 2)
    (locals_of st, frame_of h st) yr
  = (locals_of (loop_body graph st yr), frame_of h (loop_body graph st yr)).
Proof.
  unfold loop_body_on, frame_of.
  cbn [locals_of l_currentLoanAmount l_yearlyRentalIncome l_yearsToZero].
  rewrite push_record_frame, push_year_frame, push_number_frame.
  reflexivity.
Qed.

Lemma fold_loop_body_on graph h (st : LoopState num) (yrs : list nat) :
  fold_left (loop_body_on graph (List.length h) (List.length h + 1) (List.length h + 2))
    yrs (locals_of st, frame_of h st)
  = (locals_of (fold_left (loop_body graph) yrs st),
     frame_of h (fold_left (loop_body graph) yrs st)).
Proof.
  revert st. induction yrs as [|yr yrs IH]; intros st; [reflexivity|].
  cbn [fold_left]. rewrite loop_body_on_frame. apply IH.
Qed.

(** A call on any heap: it returns the addresses of three new arrays, and
    the heap it leaves is the old one followed by those arrays, filled as
    [run_loop] fills its lists. *)
Lemma calculateLoanData_on_spec (app : AppState num) graph h :
  calculateLoanData_on app graph h
  = ({| years_at := List.length h;
        loanAmounts_at := List.length h + 1;
        yearsToZero_of := st_yearsToZero (run_loop graph (maxYears app));
        yearlyBreakdown_at := List.length h + 2 |},
     frame_of h (run_loop graph (maxYears app))).
Proof.
  unfold calculateLoanData_on, alloc.
  rewrite !length_app. cbn [List.length]. rewrite <- !app_assoc. cbn [List.app].
  replace (List.length h + 1 + 1) with (List.length h + 2) by lia.
  rewrite push_year_frame, push_number_frame. cbn [List.app].
  change (h ++ [YearCells [0]; NumberCells [loanAmount graph]; RecordCells []])
    with (frame_of h (init_state graph)).
  change {| l_currentLoanAmount := loanAmount graph;
            l_yearlyRentalIncome := mul (lit 12) (monthlyRental graph);
            l_yearsToZero := None |}
    with (locals_of (init_state graph)).
  rewrite fold_loop_body_on. reflexivity.
Qed.

(** C9 — determinism: a call returns three new arrays and a number that
    are fixed by the scenario and [maxYears] alone.  On any two heaps, left
    by whatever calls came before, and in any two states of the component
    that agree on [maxYears], the data read through the returned objects
    are the same, namely [calculateLoanData]'s; and a call leaves every
    array that was on the heap before it as it was, so the result of an
    earlier call is not changed by a later one. *)
Theorem calls_do_not_depend_on_the_heap (app1 app2 : AppState num) graph h1 h2 :
  maxYears app1 = maxYears app2 ->
  read (snd (calculateLoanData_on app1 graph h1)) (fst (calculateLoanData_on app1 graph h1))
  = Some (call app1 graph) /\
  read (snd (calculateLoanData_on app2 graph h2)) (fst (calculateLoanData_on app2 graph h2))
  = read (snd (calculateLoanData_on app1 graph h1)) (fst (calculateLoanData_on app1 graph h1)) /\
  (forall a c, nth_error h1 a = Some c ->
               nth_error (snd (calculateLoanData_on app1 graph h1)) a = Some c) /\
  List.length h1 <= years_at (fst (calculateLoanData_on app1 graph h1)) /\
  List.length h1 <= loanAmounts_at (fst (calculateLoanData_on app1 graph h1)) /\
  List.length h1 <= yearlyBreakdown_at (fst (calculateLoanData_on app1 graph h1)).
Proof.
  intros Hn.
  assert (Hread : forall (app : AppState num) h,
            read (snd (calculateLoanData_on app graph h)) (fst (calculateLoanData_on app graph h))
            = Some (call app graph)).
  { intros app h. rewrite calculateLoanData_on_spec. cbn [fst snd].
    unfold read, frame_of.
    cbn [years_at loanAmounts_at yearlyBreakdown_at yearsToZero_of].
    rewrite nth_error_here, !nth_error_after. reflexivity. }
  split; [apply Hread|]. split.
  - rewrite !Hread. unfold call. rewrite Hn. reflexivity.
  - rewrite calculateLoanData_on_spec. cbn [fst snd years_at loanAmounts_at yearlyBreakdown_at].
    split; [|lia]. intros a c Ha. unfold frame_of.
    rewrite nth_error_app1; [exact Ha|]. apply nth_error_Some. congruence.
Qed.

End HeapFacts.

(** C9 at the initial scenario, once on the empty heap and once on the
    heap a call for another scenario has left, in two states of the
    component that differ in the axis settings and in the list. *)
Lemma calls_do_not_depend_on_the_heap_witness :
  read (snd (calculateLoanData_on
               {| graphs := [Binary64.scenario1]; autoScaled := true; maxYears := 20;
                  yAxisMin := lit (-500000); yAxisMax := lit 3000000 |}
               Binary64.scenario1 []))
       (fst (calculateLoanData_on
               {| graphs := [Binary64.scenario1]; autoScaled := true; maxYears := 20;
                  yAxisMin := lit (-500000); yAxisMax := lit 3000000 |}
               Binary64.scenario1 []))
  = Some (call {| graphs := [Binary64.scenario1]; autoScaled := true; maxYears := 20;
                  yAxisMin := lit (-500000); yAxisMax := lit 3000000 |}
               Binary64.scenario1) /\
  read (snd (calculateLoanData_on
               {| graphs := []; autoScaled := false; maxYears := 20;
                  yAxisMin := lit 0; yAxisMax := lit 2000000 |}
               Binary64.scenario1
               (snd (calculateLoanData_on
                       {| graphs := []; autoScaled := false; maxYears := 20;
                          yAxisMin := lit 0; yAxisMax := lit 2000000 |}
                       Binary64.paid_at_year_end []))))
       (fst (calculateLoanData_on
               {| graphs := []; autoScaled := false; maxYears := 20;
                  yAxisMin := lit 0; yAxisMax := lit 2000000 |}
               Binary64.scenario1
               (snd (calculateLoanData_on
                       {| graphs := []; autoScaled := false; maxYears := 20;
                          yAxisMin := lit 0; yAxisMax := lit 2000000 |}
                       Binary64.paid_at_year_end []))))
  = read (snd (calculateLoanData_on
                 {| graphs := [Binary64.scenario1]; autoScaled := true; maxYears := 20;
                    yAxisMin := lit (-500000); yAxisMax := lit 3000000 |}
                 Binary64.scenario1 []))
         (fst (calculateLoanData_on
                 {| graphs := [Binary64.scenario1]; autoScaled := true; maxYears := 20;
                    yAxisMin := lit (-500000); yAxisMax := lit 3000000 |}
                 Binary64.scenario1 [])).
Proof.
  pose proof (calls_do_not_depend_on_the_heap
                {| graphs := [Binary64.scenario1]; autoScaled := true; maxYears := 20;
                   yAxisMin := lit (-500000); yAxisMax := lit 3000000 |}
                {| graphs := []; autoScaled := false; maxYears := 20;
                   yAxisMin := lit 0; yAxisMax := lit 2000000 |}
                Binary64.scenario1 []
                (snd (calculateLoanData_on
                        {| graphs := []; autoScaled := false; maxYears := 20;
                           yAxisMin := lit 0; yAxisMax := lit 2000000 |}
                        Binary64.paid_at_year_end []))
                eq_refl) as H.
  exact (conj (proj1 H) (proj1 (proj2 H))).
Defined.
